(** * Camera streaming: wire protocol and session bookkeeping

    A shallow embedding of [2025_camera/main_show_ver_2.py] (the aggregating
    server, class [CameraServer]) and [2025_camera/main_camera_ver_2.py]
    (the capturing peer, classes [CameraClient] and [Camera]).

    Conventions of the embedding:
    - a Python [int] is a [Z]; a [bytes] value is a [list byte];
    - a Python [float] that only carries a time or a latency is idealised
      as a rational [Q] (no rounding, no infinities);
    - a [dict] keyed by peer address is a [gmap]; the list of live sockets is
      a [list] of descriptors, as in the source;
    - [print] appends a line to an explicit list, so that "a warning is
      logged" is an observable fact;
    - every blocking call is answered by an explicit script of events
      (what each [recv] returns, whether a [sendall] fails, what the clock
      reads), so the loops are ordinary functions. *)

From Stdlib Require Import ZArith QArith List Lia Bool.
From Stdlib.Strings Require Import Byte.
From stdpp Require Import base option list gmap strings.

Local Open Scope Z_scope.

(** ** Python values *)

Abbreviation bytes := (list byte).

(** The exceptions the two programs distinguish in their handlers. *)
Inductive exn : Type :=
  | socket_timeout
  | ConnectionResetError
  | BrokenPipeError
  | socket_error
  | struct_error
  | RuntimeError
  | OtherException.

(** The outcome of a call that may raise. *)
Inductive result (A : Type) : Type :=
  | Ret (a : A)
  | Raise (e : exn).
Arguments Ret {A} a.
Arguments Raise {A} e.

(** Truth value of [bytes | None] in an [if]: [None] and [b''] are false. *)
Definition truthy (o : option bytes) : bool :=
  match o with
  | Some (_ :: _) => true
  | _ => false
  end.

(** ** The [struct] formats used on the wire *)

Module Struct.

Definition byte_val (b : byte) : Z := Z.of_N (Byte.to_N b).

Definition byte_of_Z (z : Z) : byte :=
  match Byte.of_N (Z.to_N (z mod 256)) with
  | Some b => b
  | None => x00
  end.

(** Big-endian digits of [n] on [k] bytes, and the number they denote. *)
Fixpoint be_bytes (k : nat) (n : Z) : bytes :=
  match k with
  | O => []
  | S k' => be_bytes k' (n / 256) ++ [byte_of_Z n]
  end.

Definition be_uint (bs : bytes) : Z :=
  fold_left (fun acc b => acc * 256 + byte_val b) bs 0.

(** [struct.calcsize] of the three formats. *)
Definition calcsize_c : Z := 1.
Definition calcsize_L : Z := 4.
Definition calcsize_d : Z := 8.

(** [struct.pack('>c', b)] for a one-byte [bytes] object. *)
Definition pack_c (b : byte) : bytes := [b].

(** [struct.unpack('>c', bs)[0]]. *)
Definition unpack_c (bs : bytes) : result byte :=
  match bs with
  | [b] => Ret b
  | _ => Raise struct_error
  end.

(** [struct.pack('>B', n)]: [struct.error] outside [0, 255]. *)
Definition pack_B (n : Z) : result bytes :=
  if (0 <=? n) && (n <=? 255) then Ret (be_bytes 1 n) else Raise struct_error.

(** [struct.unpack('>B', bs)[0]]. *)
Definition unpack_B (bs : bytes) : result Z :=
  match bs with
  | [b] => Ret (byte_val b)
  | _ => Raise struct_error
  end.

(** [struct.pack('>L', n)]: [struct.error] outside [0, 2^32-1]. *)
Definition pack_L (n : Z) : result bytes :=
  if (0 <=? n) && (n <? 2 ^ 32) then Ret (be_bytes 4 n) else Raise struct_error.

(** [struct.unpack('>L', bs)[0]]. *)
Definition unpack_L (bs : bytes) : result Z :=
  if (length bs =? 4)%nat then Ret (be_uint bs) else Raise struct_error.

End Struct.

(** ** Sockets *)

(** A peer address, [(host, port)]. *)
Abbreviation addr := (string * Z)%type.

(** What one call of [sock.recv] can meet: some bytes that have arrived (a
    segment; the empty segment is the orderly close, for which [recv] returns
    [b'']), or one of the failures the server tells apart. *)
Inductive recv_event : Type :=
  | Packet (bs : bytes)
  | RecvFails (e : exn).

Record socket : Type := mkSocket {
  fileno : nat;
  peer : addr;
  inbound : list recv_event;   (* what the following recv calls will meet *)
  outbound : bytes;            (* everything written so far, oldest first *)
  send_faults : list (option exn); (* per future sendall: does it raise? *)
  closed : bool;
  connected : bool             (* the connection to the peer still stands *)
}.

Definition set_inbound (sock : socket) (evs : list recv_event) : socket :=
  mkSocket (fileno sock) (peer sock) evs (outbound sock) (send_faults sock)
           (closed sock) (connected sock).

(** The exceptions of a socket call after which the connection is gone: a
    reset, a broken pipe, or another error of the socket. A time-out leaves
    the connection standing, and so does an exception that is none of the
    socket's. *)
Definition ends_connection (e : exn) : bool :=
  match e with
  | ConnectionResetError | BrokenPipeError | socket_error => true
  | _ => false
  end.

(** The socket after a call on it has raised [e]. *)
Definition after_failure (sock : socket) (e : exn) : socket :=
  mkSocket (fileno sock) (peer sock) (inbound sock) (outbound sock)
           (send_faults sock) (closed sock)
           (connected sock && negb (ends_connection e)).

(** [sock.getpeername()]: the address of the peer while the connection
    stands; [OSError] (not connected) once it is gone. *)
Definition getpeername (sock : socket) : result addr :=
  if connected sock then Ret (peer sock) else Raise socket_error.

(** [sock.recv(bufsize)]: at most [bufsize] bytes of the first segment; what
    is left of the segment stays for the next call. After the last event the
    peer has closed. *)
Definition recv (sock : socket) (bufsize : Z) : result bytes * socket :=
  match inbound sock with
  | [] => (Ret [], sock)
  | Packet bs :: evs =>
      let n := Z.to_nat bufsize in
      match drop n bs with
      | [] => (Ret (take n bs), set_inbound sock evs)
      | rest => (Ret (take n bs), set_inbound sock (Packet rest :: evs))
      end
  | RecvFails e :: evs => (Raise e, after_failure (set_inbound sock evs) e)
  end.

(** [sock.sendall(data)]: either all of [data] is written, or the call
    raises; a failing call is modelled as writing nothing. *)
Definition sendall (sock : socket) (data : bytes) : result unit * socket :=
  match send_faults sock with
  | Some e :: fs =>
      (Raise e,
       after_failure
         (mkSocket (fileno sock) (peer sock) (inbound sock) (outbound sock) fs
                   (closed sock) (connected sock)) e)
  | None :: fs =>
      (Ret tt,
       mkSocket (fileno sock) (peer sock) (inbound sock)
                (outbound sock ++ data) fs (closed sock) (connected sock))
  | [] =>
      (Ret tt,
       mkSocket (fileno sock) (peer sock) (inbound sock)
                (outbound sock ++ data) [] (closed sock) (connected sock))
  end.

(** [sock.close()]. *)
Definition close (sock : socket) : socket :=
  mkSocket (fileno sock) (peer sock) (inbound sock) (outbound sock)
           (send_faults sock) true (connected sock).

(** The bytes that arrive before the stream closes or fails. *)
Fixpoint arriving (evs : list recv_event) : bytes :=
  match evs with
  | Packet (b :: bs) :: evs' => (b :: bs) ++ arriving evs'
  | _ => []
  end.

(** Delivery of a byte string in segments of one byte each. *)
Definition byte_by_byte (bs : bytes) : list recv_event :=
  map (fun b => Packet [b]) bs.

(** ** Standard output *)

(** The lines the two programs print, by message; the arguments are the
    values interpolated into the message. *)
Inductive line : Type :=
  (* server, main_show_ver_2.py *)
  | WARN_socket_timeout (p : addr)
  | ERROR_forced_disconnect (p : addr)
  | ERROR_recv_failed (p : addr)
  | INFO_recv_thread_start (a : addr)
  | WARN_unexpected_type (data_type : byte) (a : addr)
  | ERROR_recv_exception (a : addr)
  | INFO_client_disconnected (a : addr)
  | INFO_all_clients_gone
  | INFO_send_thread_start (a : addr)
  | ERROR_pipe_broken (a : addr)
  | ERROR_send_socket (a : addr)
  | ERROR_send_exception (a : addr)
  | WARN_invalid_camera_number (camera_num : Z)
  | INFO_server_starting
  | INFO_new_client (a : addr)
  | INFO_nobody_connected (timeout_limit : Z)
  | ERROR_accept
  | INFO_server_stopped
  | INFO_quit_requested
  | INFO_camera_requested (requested_cam : Z)
  | INFO_qr_requested
  (* client, main_camera_ver_2.py *)
  | ERROR_send_disconnected
  | ERROR_send_loop_socket
  | ERROR_send_loop
  | INFO_server_closed
  | ERROR_recv_disconnected
  | ERROR_recv_format
  | ERROR_recv_loop_socket
  | ERROR_recv_loop
  | BLANK.

(** ** The server: [class CameraServer] *)

(** [collections.deque(maxlen=100)]: [append] adds on the right and, when the
    deque has grown past [maxlen], drops one element on the left. *)
Definition maxlen : nat := 100.

Definition deque_append (d : list Q) (x : Q) : list Q :=
  let d' := d ++ [x] in
  if (maxlen <? length d')%nat then drop 1 d' else d'.

Record CameraServer : Type := mkServer {
  timeout_sec : Q;
  latency_history : list Q;
  active_clients : list nat;          (* sockets, by descriptor *)
  client_camera_data : gmap addr bytes;
  client_latency_time : gmap addr Q;
  recv_data_running : bool;
  send_camera_request : bytes;
  stdout : list line
}.

(** Field updates. *)
Definition with_latency_history (s : CameraServer) (h : list Q) :=
  mkServer (timeout_sec s) h (active_clients s) (client_camera_data s)
           (client_latency_time s) (recv_data_running s)
           (send_camera_request s) (stdout s).
Definition with_active_clients (s : CameraServer) (l : list nat) :=
  mkServer (timeout_sec s) (latency_history s) l (client_camera_data s)
           (client_latency_time s) (recv_data_running s)
           (send_camera_request s) (stdout s).
Definition with_client_camera_data (s : CameraServer) (m : gmap addr bytes) :=
  mkServer (timeout_sec s) (latency_history s) (active_clients s) m
           (client_latency_time s) (recv_data_running s)
           (send_camera_request s) (stdout s).
Definition with_client_latency_time (s : CameraServer) (m : gmap addr Q) :=
  mkServer (timeout_sec s) (latency_history s) (active_clients s)
           (client_camera_data s) m (recv_data_running s)
           (send_camera_request s) (stdout s).
Definition with_recv_data_running (s : CameraServer) (b : bool) :=
  mkServer (timeout_sec s) (latency_history s) (active_clients s)
           (client_camera_data s) (client_latency_time s) b
           (send_camera_request s) (stdout s).
Definition with_send_camera_request (s : CameraServer) (r : bytes) :=
  mkServer (timeout_sec s) (latency_history s) (active_clients s)
           (client_camera_data s) (client_latency_time s)
           (recv_data_running s) r (stdout s).
Definition print (s : CameraServer) (l : line) :=
  mkServer (timeout_sec s) (latency_history s) (active_clients s)
           (client_camera_data s) (client_latency_time s)
           (recv_data_running s) (send_camera_request s) (stdout s ++ [l]).
Definition prints (s : CameraServer) (ls : list line) :=
  mkServer (timeout_sec s) (latency_history s) (active_clients s)
           (client_camera_data s) (client_latency_time s)
           (recv_data_running s) (send_camera_request s) (stdout s ++ ls).

(** [CameraServer.__init__] (the QR fields belong to the display and are
    left out). *)
Definition CameraServer_init (timeout : Q) : CameraServer :=
  mkServer timeout [] [] ∅ ∅ true (Struct.be_bytes 1 1) [].

(** The three [except] clauses of [recv_all]. Each builds its line with
    [sock.getpeername()] before it prints it and returns [None]; when that
    call raises, the exception leaves the handler, and [recv_all], without
    anything printed. *)
Definition recv_all_except (sock : socket) (e : exn)
  : result (option bytes) * list line :=
  match getpeername sock with
  | Raise e' => (Raise e', [])
  | Ret p =>
      match e with
      | socket_timeout => (Ret None, [WARN_socket_timeout p])
      | ConnectionResetError => (Ret None, [ERROR_forced_disconnect p])
      | _ => (Ret None, [ERROR_recv_failed p])
      end
  end.

(** [CameraServer.recv_all]. The loop runs while [len(data) < size]; every
    turn either returns or adds at least one byte, so [fuel] turns are
    enough when [fuel] is the number of bytes still missing. The outer
    [option] is [None] only when the fuel runs out. The result is the bytes,
    [None], or the exception that left a handler; the lines printed by the
    handlers are returned with it. *)
Fixpoint recv_all_loop (fuel : nat) (sock : socket) (size : Z) (data : bytes)
  : option (result (option bytes) * socket * list line) :=
  if Z.of_nat (length data) <? size then
    match fuel with
    | O => None
    | S fuel' =>
        match recv sock (size - Z.of_nat (length data)) with
        | (Ret [], sock') => Some (Ret None, sock', [])
        | (Ret packet, sock') =>
            recv_all_loop fuel' sock' size (data ++ packet)
        | (Raise e, sock') =>
            let '(r, out) := recv_all_except sock' e in
            Some (r, sock', out)
        end
    end
  else Some (Ret (Some data), sock, []).

Definition recv_all (sock : socket) (size : Z)
  : option (result (option bytes) * socket * list line) :=
  recv_all_loop (Z.to_nat size) sock size [].

(** [time.time()]: the clock is a script of readings, one per call. *)
Record clock : Type := mkClock {
  reading : nat -> Q;
  calls : nat
}.

Definition time_time (clk : clock) : Q * clock :=
  (reading clk (calls clk), mkClock (reading clk) (S (calls clk))).

(** How one turn of a [while] loop ends. *)
Inductive flow : Type :=
  | Continue
  | Break
  | Throw (e : exn).

(** [list.remove(x)]: removes the first occurrence (the callers check
    membership first, so the [ValueError] of an absent element is not
    modelled). *)
Fixpoint list_remove_first (x : nat) (l : list nat) : list nat :=
  match l with
  | [] => []
  | y :: l' => if decide (y = x) then l' else y :: list_remove_first x l'
  end.

Section Server.

(** [struct.unpack('>d', bs)[0]], the number an 8-byte IEEE-754 pattern
    denotes. The decoding of doubles is not part of the repository and is
    taken as given. *)
Variable unpack_d : bytes -> Q.

(** The two [with self.lock:] blocks of the inbound loop. *)
Definition put_frame (s : CameraServer) (a : addr) (camera_data_bytes : bytes)
  : CameraServer :=
  with_client_camera_data s (<[a := camera_data_bytes]> (client_camera_data s)).

Definition put_latency (s : CameraServer) (a : addr) (latency_ms : Q)
  : CameraServer :=
  let s := with_latency_history s (deque_append (latency_history s) latency_ms) in
  with_client_latency_time s (<[a := latency_ms]> (client_latency_time s)).

(** One turn of the [while self.recv_data_running:] loop of
    [CameraServer.recv_data]. *)
Definition recv_data_turn (s : CameraServer) (sock : socket) (a : addr)
    (clk : clock) : option (flow * CameraServer * socket * clock) :=
  '(data_type_bytes, sock, out) ← recv_all sock Struct.calcsize_c;
  let s := prints s out in
  match data_type_bytes with
  | Raise e => Some (Throw e, s, sock, clk)
  | Ret None => Some (Break, s, sock, clk)
  | Ret (Some data_type_bytes) =>
    match Struct.unpack_c data_type_bytes with
    | Raise e => Some (Throw e, s, sock, clk)
    | Ret data_type =>
      if Byte.eqb data_type "c"%byte then
        '(data_length_bytes, sock, out) ← recv_all sock Struct.calcsize_L;
        let s := prints s out in
        match data_length_bytes with
        | Raise e => Some (Throw e, s, sock, clk)
        | Ret None => Some (Break, s, sock, clk)
        | Ret (Some data_length_bytes) =>
          match Struct.unpack_L data_length_bytes with
          | Raise e => Some (Throw e, s, sock, clk)
          | Ret data_length =>
            '(camera_data_bytes, sock, out) ← recv_all sock data_length;
            let s := prints s out in
            match camera_data_bytes with
            | Raise e => Some (Throw e, s, sock, clk)
            | Ret None => Some (Break, s, sock, clk)
            | Ret (Some camera_data_bytes) =>
                Some (Continue, put_frame s a camera_data_bytes, sock, clk)
            end
          end
        end
      else if Byte.eqb data_type "t"%byte then
        '(timestamp_bytes, sock, out) ← recv_all sock Struct.calcsize_d;
        let s := prints s out in
        match timestamp_bytes with
        | Raise e => Some (Throw e, s, sock, clk)
        | Ret None => Some (Break, s, sock, clk)
        | Ret (Some timestamp_bytes) =>
            let client_timestamp := unpack_d timestamp_bytes in
            let '(server_receive_time, clk) := time_time clk in
            let latency_ms :=
              ((server_receive_time - client_timestamp) * 1000)%Q in
            Some (Continue, put_latency s a latency_ms, sock, clk)
        end
      else
        Some (Continue, print s (WARN_unexpected_type data_type a), sock, clk)
    end
  end.

(** The loop itself. [None] only when the fuel runs out; the first
    component tells whether the loop was left by an exception. *)
Fixpoint recv_data_loop (fuel : nat) (s : CameraServer) (sock : socket)
    (a : addr) (clk : clock)
  : option (option exn * CameraServer * socket * clock) :=
  if recv_data_running s then
    match fuel with
    | O => None
    | S fuel' =>
        '(fl, s, sock, clk) ← recv_data_turn s sock a clk;
        match fl with
        | Continue => recv_data_loop fuel' s sock a clk
        | Break => Some (None, s, sock, clk)
        | Throw e => Some (Some e, s, sock, clk)
        end
    end
  else Some (None, s, sock, clk).

(** [CameraServer.display_thread_running]: always [True] in this
    revision, the display being driven by the main thread. *)
Definition display_thread_running (s : CameraServer) : bool := true.

(** The [with self.lock:] block of the [finally] clause. *)
Definition registry_cleanup (s : CameraServer) (sock : socket) (a : addr)
  : CameraServer :=
  let s :=
    if decide (fileno sock ∈ active_clients s)
    then with_active_clients s (list_remove_first (fileno sock) (active_clients s))
    else s in
  let s :=
    if decide (is_Some (client_camera_data s !! a))
    then with_client_camera_data s (delete a (client_camera_data s))
    else s in
  if decide (is_Some (client_latency_time s !! a))
  then with_client_latency_time s (delete a (client_latency_time s))
  else s.

(** The whole [finally] clause of [recv_data]. *)
Definition recv_data_finally (s : CameraServer) (sock : socket) (a : addr)
  : CameraServer * socket :=
  let s := registry_cleanup s sock a in
  let sock := close sock in
  let s := print s (INFO_client_disconnected a) in
  match active_clients s with
  | [] =>
      if negb (display_thread_running s) then
        let s := print s INFO_all_clients_gone in
        (with_recv_data_running s false, sock)
      else (s, sock)
  | _ :: _ => (s, sock)
  end.

(** [CameraServer.recv_data(sock, addr)]: the body of a session's inbound
    thread. ([sock.settimeout] only decides when a [recv] meets a
    time-out, which the event script already fixes.) *)
Definition recv_data (fuel : nat) (s : CameraServer) (sock : socket)
    (a : addr) (clk : clock) : option (CameraServer * socket * clock) :=
  let s := print s (INFO_recv_thread_start a) in
  '(raised, s, sock, clk) ← recv_data_loop fuel s sock a clk;
  let s :=
    match raised with
    | Some _ => print s (ERROR_recv_exception a)
    | None => s
    end in
  let '(s, sock) := recv_data_finally s sock a in
  Some (s, sock, clk).

(** [CameraServer.get_latest_latency_data]. *)
Definition get_latest_latency_data (s : CameraServer) : Q :=
  match latency_history s with
  | [] => 0%Q
  | h => (fold_left Qplus h 0%Q / inject_Z (Z.of_nat (length h)))%Q
  end.

(** [CameraServer.set_camera_request]. An exception of [struct.pack]
    would leave the method; the range test keeps it from happening. *)
Definition set_camera_request (s : CameraServer) (camera_num : Z)
  : result CameraServer :=
  if (1 <=? camera_num) && (camera_num <=? 9) then
    match Struct.pack_B camera_num with
    | Ret request => Ret (with_send_camera_request s request)
    | Raise e => Raise e
    end
  else Ret (print s (WARN_invalid_camera_number camera_num)).

End Server.

(** ** The outbound loop of a session: [CameraServer.send_data] *)

(** One turn of [while self.recv_data_running:] in [send_data]: the stored
    request is read under the lock and written to the socket. A broken pipe
    and any other socket error leave the loop through their handlers; an
    exception of another kind leaves it through the outer handler. *)
Definition send_data_turn (s : CameraServer) (sock : socket) (a : addr)
  : flow * CameraServer * socket :=
  let msg := send_camera_request s in
  match sendall sock msg with
  | (Ret _, sock) => (Continue, s, sock)
  | (Raise BrokenPipeError, sock) => (Break, print s (ERROR_pipe_broken a), sock)
  | (Raise ConnectionResetError, sock)
  | (Raise socket_timeout, sock)
  | (Raise socket_error, sock) => (Break, print s (ERROR_send_socket a), sock)
  | (Raise e, sock) => (Throw e, s, sock)
  end.

(** The loop; one unit of fuel per tick of 100 ms. [None] when the fuel runs
    out while the loop would still run. *)
Fixpoint send_data_loop (fuel : nat) (s : CameraServer) (sock : socket)
    (a : addr) : option (option exn * CameraServer * socket) :=
  if recv_data_running s then
    match fuel with
    | O => None
    | S fuel' =>
        match send_data_turn s sock a with
        | (Continue, s, sock) => send_data_loop fuel' s sock a
        | (Break, s, sock) => Some (None, s, sock)
        | (Throw e, s, sock) => Some (Some e, s, sock)
        end
    end
  else Some (None, s, sock).

(** [CameraServer.send_data(sock, addr)]; its [finally] clause does
    nothing, the clean-up being left to [recv_data]. *)
Definition send_data (fuel : nat) (s : CameraServer) (sock : socket) (a : addr)
  : option (CameraServer * socket) :=
  let s := print s (INFO_send_thread_start a) in
  '(raised, s, sock) ← send_data_loop fuel s sock a;
  match raised with
  | Some _ => Some (print s (ERROR_send_exception a), sock)
  | None => Some (s, sock)
  end.

(** ** The accept loop: [CameraServer.run] and [Display.keyboard_processing] *)

(** The part of [class Display] that the keyboard handler writes. *)
Record Display : Type := mkDisplay {
  qr_request : bool;
  qr_result : option string
}.

(** [ord] of the keys the handler looks at. *)
Definition ord_q : Z := 113.
Definition ord_0 : Z := 48.
Definition ord_1 : Z := 49.
Definition ord_9 : Z := 57.
Definition ord_r : Z := 114.
Definition ord_R : Z := 82.

(** [Display.keyboard_processing]; [key] is [cv2.waitKey(1) & 0xFF]. *)
Definition keyboard_processing (d : Display) (s : CameraServer) (key : Z)
  : result (Display * CameraServer) :=
  if key =? ord_q then
    let s := print s INFO_quit_requested in
    Ret (d, with_recv_data_running s false)
  else if (ord_1 <=? key) && (key <=? ord_9) then
    let requested_cam := key - ord_0 in
    match set_camera_request s requested_cam with
    | Raise e => Raise e
    | Ret s =>
        Ret (mkDisplay (qr_request d) None,
             print s (INFO_camera_requested requested_cam))
    end
  else if (key =? ord_r) || (key =? ord_R) then
    Ret (mkDisplay true (qr_result d), print s INFO_qr_requested)
  else Ret (d, s).

(** The state of the main thread inside [run]. *)
Record Acceptor : Type := mkAcceptor {
  server : CameraServer;
  main_display : Display;
  start_time : Q;
  wall : clock;
  listening : bool;                    (* server_socket is open *)
  threads : list (socket * addr)       (* sessions whose two threads were started *)
}.

(** The idle limit of [run], a local constant of the method. *)
Definition timeout_limit : Z := 60.

(** What one turn of the accept loop meets: the outcome of
    [server_socket.accept()] (a connection, [socket.timeout] after the 10 ms
    poll, or another exception) and the key read by the display. *)
Record run_event : Type := mkRunEvent {
  accepted : result (socket * addr);
  key : Z
}.

(** The second half of a turn: display, keyboard, and the final test of the
    flag. Rendering has no effect on the server and is left out. *)
Definition run_display (st : Acceptor) (k : Z) : flow * Acceptor :=
  match keyboard_processing (main_display st) (server st) k with
  | Raise e => (Throw e, st)
  | Ret (d, s) =>
      let st := mkAcceptor s d (start_time st) (wall st) (listening st)
                           (threads st) in
      if negb (recv_data_running s) then (Break, st) else (Continue, st)
  end.

(** One turn of [while self.recv_data_running:] in [run]. *)
Definition run_turn (st : Acceptor) (ev : run_event) : flow * Acceptor :=
  match accepted ev with
  | Ret (conn, a) =>
      let s := server st in
      let s := with_active_clients s (active_clients s ++ [fileno conn]) in
      let s := print s (INFO_new_client a) in
      let '(now, clk) := time_time (wall st) in
      run_display
        (mkAcceptor s (main_display st) now clk (listening st)
                    (threads st ++ [(conn, a)]))
        (key ev)
  | Raise socket_timeout =>
      match active_clients (server st) with
      | [] =>
          let '(now, clk) := time_time (wall st) in
          let st := mkAcceptor (server st) (main_display st) (start_time st)
                               clk (listening st) (threads st) in
          if negb (Qle_bool (now - start_time st) (inject_Z timeout_limit))
          then
            let s := print (server st) (INFO_nobody_connected timeout_limit) in
            let s := with_recv_data_running s false in
            (Break,
             mkAcceptor s (main_display st) (start_time st) clk
                        (listening st) (threads st))
          else run_display st (key ev)
      | _ :: _ => run_display st (key ev)
      end
  | Raise _ =>
      let s := print (server st) ERROR_accept in
      let s := with_recv_data_running s false in
      (Break,
       mkAcceptor s (main_display st) (start_time st) (wall st)
                  (listening st) (threads st))
  end.

(** The loop over a script of turns. [None] when the script ends while the
    loop would still run. The first component tells whether an exception
    left the loop. *)
Fixpoint run_loop (script : list run_event) (st : Acceptor)
  : option (option exn * Acceptor) :=
  if recv_data_running (server st) then
    match script with
    | [] => None
    | ev :: script' =>
        match run_turn st ev with
        | (Continue, st) => run_loop script' st
        | (Break, st) => Some (None, st)
        | (Throw e, st) => Some (Some e, st)
        end
    end
  else Some (None, st).

(** What follows the loop: [server_socket.close()] and the last line. *)
Definition run_epilogue (st : Acceptor) : Acceptor :=
  mkAcceptor (print (server st) INFO_server_stopped) (main_display st)
             (start_time st) (wall st) false (threads st).

(** [CameraServer.run], from the moment the listening socket is bound (a
    failure of [bind] or [listen] ends the program before any of this). An
    exception that leaves the loop also skips the epilogue. *)
Definition run (s : CameraServer) (clk : clock) (script : list run_event)
  : option (option exn * Acceptor) :=
  let s := print s INFO_server_starting in
  let '(now, clk) := time_time clk in
  let st := mkAcceptor s (mkDisplay false None) now clk true [] in
  '(raised, st) ← run_loop script st;
  match raised with
  | Some e => Some (Some e, st)
  | None => Some (None, run_epilogue st)
  end.

(** ** The peer: [class Camera] and [class CameraClient] *)

Record Camera : Type := mkCamera {
  device : nat;                   (* index given to cv2.VideoCapture *)
  jpeg_quality : Z;
  camera_num : Z;
  camera_data : option bytes      (* the last frame that was framed *)
}.

(** [Camera.initialize_cameras]: the devices [0 .. 9] that open are numbered
    [1, 2, ...] in order; [opened] tells which devices open. *)
Fixpoint probe_devices (devices : list nat) (opened : nat -> bool)
    (quality : Z) (next_num : Z) : list Camera :=
  match devices with
  | [] => []
  | i :: devices' =>
      if opened i
      then mkCamera i quality next_num None
             :: probe_devices devices' opened quality (next_num + 1)
      else probe_devices devices' opened quality next_num
  end.

Definition initialize_cameras (opened : nat -> bool) (quality : Z)
  : result (list Camera) :=
  match probe_devices (seq 0 10) opened quality 1 with
  | [] => Raise RuntimeError
  | cameras => Ret cameras
  end.

(** [Camera.capture_and_encode]. [frame_data] is what
    [__encode_data(__capture_camera(cap))] returned: the JPEG bytes, or [None]
    when the capture or the compression failed. *)
Definition capture_and_encode (cam : Camera) (frame_data : option bytes)
  : result (option bytes * Camera) :=
  match frame_data with
  | Some (b :: bs) =>
      let payload := b :: bs in
      match Struct.pack_L (Z.of_nat (length payload)) with
      | Raise e => Raise e
      | Ret len =>
          let framed := Struct.pack_c "c"%byte ++ len ++ payload in
          Ret (Some framed,
               mkCamera (device cam) (jpeg_quality cam) (camera_num cam)
                        (Some framed))
      end
  | _ => Ret (None, cam)
  end.

Record CameraClient : Type := mkClient {
  sock : socket;
  loop_running : bool;
  requested_camera_num : Z;
  cameras : list Camera;
  client_clock : clock;
  client_stdout : list line
}.

Definition client_print (c : CameraClient) (l : line) : CameraClient :=
  mkClient (sock c) (loop_running c) (requested_camera_num c) (cameras c)
           (client_clock c) (client_stdout c ++ [l]).
Definition with_sock (c : CameraClient) (k : socket) : CameraClient :=
  mkClient k (loop_running c) (requested_camera_num c) (cameras c)
           (client_clock c) (client_stdout c).
Definition with_loop_running (c : CameraClient) (b : bool) : CameraClient :=
  mkClient (sock c) b (requested_camera_num c) (cameras c)
           (client_clock c) (client_stdout c).
Definition with_requested_camera_num (c : CameraClient) (n : Z) : CameraClient :=
  mkClient (sock c) (loop_running c) n (cameras c)
           (client_clock c) (client_stdout c).
Definition with_cameras (c : CameraClient) (l : list Camera) : CameraClient :=
  mkClient (sock c) (loop_running c) (requested_camera_num c) l
           (client_clock c) (client_stdout c).
Definition with_client_clock (c : CameraClient) (k : clock) : CameraClient :=
  mkClient (sock c) (loop_running c) (requested_camera_num c) (cameras c)
           k (client_stdout c).

(** The [for cam_obj in self.cameras:] search of [send_loop]: the first
    camera with the requested number is asked for a frame, and the search
    stops there. [capture n] is the frame data camera number [n] would
    deliver in this turn. Returns the frame and the cameras afterwards. *)
Fixpoint capture_requested (cams : list Camera) (current_request_num : Z)
    (capture : Z -> option bytes) : result (option bytes * list Camera) :=
  match cams with
  | [] => Ret (None, [])
  | cam_obj :: cams' =>
      if camera_num cam_obj =? current_request_num then
        match capture_and_encode cam_obj (capture (camera_num cam_obj)) with
        | Raise e => Raise e
        | Ret (target, cam_obj') => Ret (target, cam_obj' :: cams')
        end
      else
        match capture_requested cams' current_request_num capture with
        | Raise e => Raise e
        | Ret (target, cams'') => Ret (target, cam_obj :: cams'')
        end
  end.

Section Client.

(** [struct.pack('>d', x)], the 8-byte IEEE-754 pattern of a float; taken
    as given, like its inverse on the server side. *)
Variable pack_d : Q -> bytes.

(** [CameraClient.__timestamp_send]. *)
Definition timestamp_send (c : CameraClient) : result unit * CameraClient :=
  let '(timestamp, clk) := time_time (client_clock c) in
  let c := with_client_clock c clk in
  let '(r, k) :=
    sendall (sock c) (Struct.pack_c "t"%byte ++ pack_d timestamp) in
  (r, with_sock c k).

(** The three [except] clauses that close a turn of [send_loop]. *)
Definition send_loop_except (c : CameraClient) (e : exn)
  : flow * CameraClient :=
  let msg :=
    match e with
    | ConnectionResetError | BrokenPipeError => ERROR_send_disconnected
    | socket_error | socket_timeout => ERROR_send_loop_socket
    | _ => ERROR_send_loop
    end in
  (Break, with_loop_running (client_print c msg) false).

(** One turn of [while self.loop_running:] in [CameraClient.send_loop]. *)
Definition send_loop_turn (c : CameraClient) (capture : Z -> option bytes)
  : flow * CameraClient :=
  let current_request_num := requested_camera_num c in
  match capture_requested (cameras c) current_request_num capture with
  | Raise e => send_loop_except c e
  | Ret (target_camera_data, cams) =>
      let c := with_cameras c cams in
      if truthy target_camera_data then
        match timestamp_send c with
        | (Raise e, c) => send_loop_except c e
        | (Ret _, c) =>
            match sendall (sock c) (default [] target_camera_data) with
            | (Raise e, k) => send_loop_except (with_sock c k) e
            | (Ret _, k) => (Continue, with_sock c k)
            end
        end
      else
        let c := with_requested_camera_num c 1 in
        (Continue, client_print c BLANK)
  end.

(** [CameraClient.send_loop] over a script of captures, one per turn.
    [None] when the script ends while the loop would still run. *)
Fixpoint send_loop (script : list (Z -> option bytes)) (c : CameraClient)
  : option CameraClient :=
  if loop_running c then
    match script with
    | [] => None
    | capture :: script' =>
        match send_loop_turn c capture with
        | (Continue, c) => send_loop script' c
        | (_, c) => Some c
        end
    end
  else Some c.

End Client.

(** The [except] clauses that close a turn of [receive_loop]. *)
Definition receive_loop_except (c : CameraClient) (e : exn)
  : flow * CameraClient :=
  let msg :=
    match e with
    | ConnectionResetError | BrokenPipeError => ERROR_recv_disconnected
    | struct_error => ERROR_recv_format
    | socket_error | socket_timeout => ERROR_recv_loop_socket
    | _ => ERROR_recv_loop
    end in
  (Break, with_loop_running (client_print c msg) false).

(** One turn of [while self.loop_running:] in [CameraClient.receive_loop]. *)
Definition receive_loop_turn (c : CameraClient) : flow * CameraClient :=
  match recv (sock c) 1 with
  | (Raise e, k) => receive_loop_except (with_sock c k) e
  | (Ret [], k) =>
      let c := client_print (with_sock c k) INFO_server_closed in
      (Break, with_loop_running c false)
  | (Ret received_byte, k) =>
      let c := with_sock c k in
      match Struct.unpack_B received_byte with
      | Raise e => receive_loop_except c e
      | Ret requested_cam_id =>
          (Continue, with_requested_camera_num c requested_cam_id)
      end
  end.

(** [CameraClient.receive_loop]; every turn that continues has consumed a
    byte, so the fuel can be the number of bytes still to arrive, plus one. *)
Fixpoint receive_loop (fuel : nat) (c : CameraClient) : option CameraClient :=
  if loop_running c then
    match fuel with
    | O => None
    | S fuel' =>
        match receive_loop_turn c with
        | (Continue, c) => receive_loop fuel' c
        | (_, c) => Some c
        end
    end
  else Some c.

(** ** Notions used in the statements *)

(** The sum of a list of samples, by recursion on the list. *)
Fixpoint total (h : list Q) : Q :=
  match h with
  | [] => 0%Q
  | x :: h' => (x + total h')%Q
  end.

(** The server after the latencies [samples] of peer [a] were recorded, in
    order, starting from [s]. *)
Definition record_latencies (s : CameraServer) (a : addr) (samples : list Q)
  : CameraServer :=
  fold_left (fun s x => put_latency s a x) samples s.

(** The next [n] calls of [sendall] on [k] do not raise. *)
Definition sends_succeed (n : nat) (k : socket) : Prop :=
  Forall (fun f => f = None) (take n (send_faults k)).

(** ** Sample data for the worked instances *)

Definition demo_peer : addr := ("192.168.6.7"%string, 50000).

(** A connected socket, descriptor 3, with a given script of arrivals. *)
Definition demo_socket (evs : list recv_event) : socket :=
  mkSocket 3 demo_peer evs [] [] false true.

(** A clock that starts at [t0] and advances by one second per reading. *)
Definition demo_clock (t0 : Q) : clock :=
  mkClock (fun k => (t0 + inject_Z (Z.of_nat k))%Q) 0.

(** Stand-ins for the two conversions of doubles. *)
Definition demo_unpack_d (bs : bytes) : Q := inject_Z (Struct.be_uint bs).
Definition demo_pack_d (x : Q) : bytes := Struct.be_bytes 8 (Qnum x).

Definition demo_camera : Camera := mkCamera 0 40 1 None.

(** A server with exactly one live session, on descriptor 3. *)
Definition demo_server : CameraServer :=
  with_active_clients (CameraServer_init 60) [3%nat].

(** One sample more than the window holds: 0, 1, ..., 100 milliseconds. *)
Definition demo_samples : list Q :=
  map (fun k => inject_Z (Z.of_nat k)) (seq 0 101).

(** The main thread inside [run], started at time 0 with nobody connected,
    at a moment when the clock reads 61. *)
Definition demo_acceptor : Acceptor :=
  mkAcceptor (CameraServer_init 60) (mkDisplay false None) 0
             (mkClock (fun _ => 61%Q) 0) true [].

(** A turn in which [accept] times out and no key is pressed. *)
Definition quiet_turn : run_event := mkRunEvent (Raise socket_timeout) 255.

(** A peer with one camera, connected, asked for camera 1. *)
Definition demo_client : CameraClient :=
  mkClient (demo_socket []) true 1 [demo_camera] (demo_clock 0) [].

(** What the camera delivers in the sample turn: two bytes from camera 1. *)
Definition demo_capture (n : Z) : option bytes :=
  if n =? 1 then Some ["J"; "F"]%byte else None.

(** The bytes of a camera frame with payload [P], as [capture_and_encode]
    lays them out. *)
Definition camera_frame (P : bytes) : bytes :=
  Struct.pack_c "c"%byte ++ Struct.be_bytes 4 (Z.of_nat (length P)) ++ P.

(** The stored request is one byte whose value is a camera number from 1
    to 9. *)
Definition selection_ok (s : CameraServer) : Prop :=
  exists v, 1 <= v <= 9 /\ send_camera_request s = [Struct.byte_of_Z v].

(** The latency history respects the bound of its deque. *)
Definition history_ok (s : CameraServer) : Prop :=
  (length (latency_history s) <= maxlen)%nat.

(** A connected socket with a given script of arrivals and of write
    failures, on which nothing was written yet. *)
Definition demo_link (evs : list recv_event) (faults : list (option exn))
  : socket :=
  mkSocket 3 demo_peer evs [] faults false true.

(** * Properties *)

(** ** The integer formats *)

Lemma byte_val_range (b : byte) : 0 <= Struct.byte_val b < 256.
Proof.
  unfold Struct.byte_val. pose proof (Byte.to_N_bounded b). lia.
Qed.

Lemma byte_val_of_Z (z : Z) : Struct.byte_val (Struct.byte_of_Z z) = z mod 256.
Proof.
  unfold Struct.byte_val, Struct.byte_of_Z.
  pose proof (Z.mod_pos_bound z 256 ltac:(lia)) as Hr.
  destruct (Byte.of_N (Z.to_N (z mod 256))) as [b|] eqn:E.
  - apply Byte.to_of_N in E. rewrite E. lia.
  - apply Byte.of_N_None_iff in E. lia.
Qed.

Lemma byte_of_Z_val (b : byte) : Struct.byte_of_Z (Struct.byte_val b) = b.
Proof.
  unfold Struct.byte_of_Z.
  pose proof (byte_val_range b) as Hr.
  rewrite Z.mod_small by lia.
  unfold Struct.byte_val. rewrite N2Z.id, Byte.of_to_N. reflexivity.
Qed.

Lemma be_bytes_length (k : nat) (n : Z) : length (Struct.be_bytes k n) = k.
Proof.
  revert n. induction k as [|k IH]; intros n; simpl; [reflexivity|].
  rewrite length_app, IH. simpl. lia.
Qed.

Lemma be_uint_snoc (bs : bytes) (b : byte) :
  Struct.be_uint (bs ++ [b]) = Struct.be_uint bs * 256 + Struct.byte_val b.
Proof. unfold Struct.be_uint. rewrite fold_left_app. reflexivity. Qed.

Lemma be_uint_be_bytes (k : nat) (n : Z) :
  0 <= n -> Struct.be_uint (Struct.be_bytes k n) = n mod 256 ^ Z.of_nat k.
Proof.
  revert n. induction k as [|k IH]; intros n Hn.
  - simpl. rewrite Z.mod_1_r. reflexivity.
  - cbn [Struct.be_bytes]. rewrite be_uint_snoc, byte_val_of_Z.
    rewrite IH by (apply Z.div_pos; lia).
    rewrite Nat2Z.inj_succ, Z.pow_succ_r by lia.
    rewrite Z.rem_mul_r by lia.
    ring.
Qed.

Lemma unpack_L_pack_L (n : Z) :
  0 <= n < 2 ^ 32 ->
  exists len, Struct.pack_L n = Ret len /\ length len = 4%nat
              /\ Struct.unpack_L len = Ret n.
Proof.
  intros Hn. exists (Struct.be_bytes 4 n). unfold Struct.pack_L, Struct.unpack_L.
  replace ((0 <=? n) && (n <? 2 ^ 32)) with true by (symmetry; apply andb_true_iff; lia).
  rewrite be_bytes_length. repeat split.
  simpl Nat.eqb. cbv iota. rewrite be_uint_be_bytes by lia.
  rewrite Z.mod_small; [reflexivity|]. change (256 ^ Z.of_nat 4) with (2 ^ 32). lia.
Qed.

Lemma unpack_L_be_bytes (n : Z) :
  0 <= n < 2 ^ 32 -> Struct.unpack_L (Struct.be_bytes 4 n) = Ret n.
Proof.
  intros Hn. unfold Struct.unpack_L. rewrite be_bytes_length.
  cbn [Nat.eqb]. rewrite be_uint_be_bytes by lia.
  rewrite Z.mod_small; [reflexivity|]. change (256 ^ Z.of_nat 4) with (2 ^ 32). lia.
Qed.

Lemma unpack_B_pack_B (n : Z) :
  0 <= n <= 255 ->
  exists r, Struct.pack_B n = Ret r /\ length r = 1%nat /\ Struct.unpack_B r = Ret n.
Proof.
  intros Hn. exists [Struct.byte_of_Z n]. unfold Struct.pack_B.
  replace ((0 <=? n) && (n <=? 255)) with true by (symmetry; apply andb_true_iff; lia).
  repeat split. simpl. rewrite byte_val_of_Z, Z.mod_small by lia. reflexivity.
Qed.

(** ** Exact reads: [recv_all] *)

Lemma set_inbound_same (sock : socket) : set_inbound sock (inbound sock) = sock.
Proof. destruct sock; reflexivity. Qed.

Lemma set_inbound_twice (sock : socket) (e1 e2 : list recv_event) :
  set_inbound (set_inbound sock e1) e2 = set_inbound sock e2.
Proof. reflexivity. Qed.

Lemma arriving_byte_by_byte (bs : bytes) : arriving (byte_by_byte bs) = bs.
Proof. induction bs as [|b bs IH]; simpl; [reflexivity|]. now rewrite IH. Qed.

Lemma arriving_packet_app (bs : bytes) (evs : list recv_event) :
  bs <> [] -> arriving (Packet bs :: evs) = bs ++ arriving evs.
Proof. destruct bs; [congruence | reflexivity]. Qed.

(** The loop, told by the number of bytes still missing: when that many
    bytes arrive before the stream ends or fails, the loop returns the
    accumulated bytes followed by exactly those, and leaves the rest of the
    stream; otherwise it gives up, returning [None] or raising from a
    handler. It never runs out of fuel. *)
Lemma recv_all_loop_spec (fuel : nat) :
  forall (sock : socket) (size : Z) (data : bytes),
    (Z.to_nat size - length data <= fuel)%nat ->
    let need := (Z.to_nat size - length data)%nat in
    let stream := arriving (inbound sock) in
    ((need <= length stream)%nat ->
       exists evs,
         recv_all_loop fuel sock size data
           = Some (Ret (Some (data ++ take need stream)),
                   set_inbound sock evs, [])
         /\ arriving evs = drop need stream)
    /\ ((length stream < need)%nat ->
       exists r sock' out,
         recv_all_loop fuel sock size data = Some (r, sock', out)
         /\ (r = Ret None \/ exists e, r = Raise e)
         /\ fileno sock' = fileno sock).
Proof.
  induction fuel as [|fuel IH]; intros sock size data Hfuel need stream.
  - (* no byte is missing *)
    assert (need = 0%nat) as Hneed by (subst need; lia).
    assert ((Z.of_nat (length data) <? size) = false) as Hc
      by (apply Z.ltb_ge; lia).
    split; [intros _ | lia].
    exists (inbound sock). simpl. rewrite Hc, Hneed, set_inbound_same.
    rewrite take_0, app_nil_r, drop_0. auto.
  - destruct (Z.of_nat (length data) <? size) eqn:Hc.
    2:{ assert (need = 0%nat) as Hneed
          by (apply Z.ltb_ge in Hc; subst need; lia).
        split; [intros _ | lia].
        exists (inbound sock). simpl. rewrite Hc, Hneed, set_inbound_same.
        rewrite take_0, app_nil_r, drop_0. auto. }
    apply Z.ltb_lt in Hc.
    assert (Z.to_nat (size - Z.of_nat (length data)) = need) as Hk
      by (subst need; lia).
    assert (exists m, need = S m) as [m Hm]
      by (exists (pred need); subst need; lia).
    cbn [recv_all_loop].
    replace (Z.of_nat (length data) <? size) with true
      by (symmetry; apply Z.ltb_lt; exact Hc).
    unfold recv. rewrite Hk. subst stream.
    destruct (inbound sock) as [|[[|b bs]|e] evs] eqn:Hin.
    + (* the peer has closed *)
      split; [simpl; lia | intros _].
      exists (Ret None), sock, []. split; [reflexivity|]. auto.
    + (* an empty segment: closed as well *)
      split; [simpl; lia | intros _].
      rewrite drop_nil, take_nil.
      exists (Ret None), (set_inbound sock evs), []. split; [reflexivity|]. auto.
    + (* a segment with at least one byte *)
      rewrite arriving_packet_app by discriminate.
      set (seg := b :: bs) in *.
      assert (take need seg = b :: take m bs) as Htake
        by (rewrite Hm; reflexivity).
      (* the socket after this recv, whichever way the segment splits *)
      set (evs' := match drop need seg with
                   | [] => evs
                   | rest => Packet rest :: evs
                   end).
      assert (arriving evs' = drop need seg ++ arriving evs) as Harr.
      { subst evs'. destruct (drop need seg) eqn:Hd; [reflexivity|].
        apply arriving_packet_app. discriminate. }
      assert (match drop need seg with
              | [] => (Ret (take need seg), set_inbound sock evs)
              | rest => (Ret (take need seg), set_inbound sock (Packet rest :: evs))
              end = (Ret (take need seg), set_inbound sock evs')) as Hrecv.
      { subst evs'. destruct (drop need seg); reflexivity. }
      cbv zeta. rewrite Hrecv, Htake. rewrite <- Htake.
      specialize (IH (set_inbound sock evs') size (data ++ take need seg)).
      assert (length (take need seg) = Nat.min need (length seg)) as Hlen
        by apply length_take.
      assert (1 <= length seg)%nat as Hseg by (subst seg; simpl; lia).
      rewrite length_app, Hlen in IH.
      destruct IH as [IHok IHko]; [subst need; lia|].
      cbn [inbound set_inbound] in IHok, IHko. rewrite Harr in IHok, IHko.
      rewrite length_app, length_drop in IHok, IHko.
      assert (Z.to_nat size - (length data + Nat.min need (length seg))
              = need - Nat.min need (length seg))%nat as Hneed'
        by (subst need; lia).
      rewrite Hneed' in IHok, IHko.
      set (rest := arriving evs) in *.
      assert (take need (seg ++ rest)
              = take need seg ++ take (need - length seg) rest) as Ht
        by apply take_app.
      assert (drop need (seg ++ rest)
              = drop need seg ++ drop (need - length seg) rest) as Hd
        by apply drop_app.
      split.
      * intros Hle. rewrite length_app in Hle.
        destruct IHok as (evs2 & Heq & Harr2); [lia|].
        exists evs2. rewrite Heq, Harr2, Ht, Hd. clear Heq Harr2 Ht Hd.
        destruct (Nat.le_gt_cases need (length seg)) as [Hs|Hs].
        -- rewrite Nat.min_l by lia.
           replace (need - need)%nat with 0%nat by lia.
           replace (need - length seg)%nat with 0%nat by lia.
           rewrite !take_0, !drop_0, !app_nil_r. auto.
        -- rewrite Nat.min_r by lia.
           rewrite (drop_ge seg need) by lia.
           rewrite !app_nil_l, <- app_assoc. auto.
      * intros Hlt. rewrite length_app in Hlt.
        destruct IHko as (r & sock' & out & Heq & Hr & Hfd); [lia|].
        exists r, sock', out. split; [exact Heq|]. split; [exact Hr|].
        exact Hfd.
    + (* the recv raises *)
      split; [simpl; lia | intros _].
      unfold recv_all_except, getpeername.
      cbn [connected after_failure set_inbound].
      destruct (connected sock); destruct e; cbn [andb negb ends_connection];
        eexists _, _, _; (split; [reflexivity|]); eauto.
Qed.

(** [recv_all] always returns or raises: with the fuel it gives itself the
    loop ends. When it returns bytes, they are the next [size] bytes of the
    stream, and nothing was printed; otherwise fewer than [size] bytes were
    to arrive. *)
Lemma recv_all_total (sock : socket) (size : Z) :
  exists r sock' out,
    recv_all sock size = Some (r, sock', out)
    /\ fileno sock' = fileno sock
    /\ match r with
       | Ret (Some data) =>
           exists evs,
             sock' = set_inbound sock evs
             /\ arriving (inbound sock) = data ++ arriving evs
             /\ length data = Z.to_nat size /\ out = []
       | _ => (length (arriving (inbound sock)) < Z.to_nat size)%nat
       end.
Proof.
  unfold recv_all.
  destruct (recv_all_loop_spec (Z.to_nat size) sock size [])
    as [Hok Hko]; [simpl; lia|].
  simpl in Hok, Hko. rewrite Nat.sub_0_r in Hok, Hko.
  destruct (Nat.le_gt_cases (Z.to_nat size) (length (arriving (inbound sock))))
    as [Hle|Hgt].
  - destruct (Hok Hle) as (evs & Heq & Harr).
    exists (Ret (Some (take (Z.to_nat size) (arriving (inbound sock))))),
           (set_inbound sock evs), [].
    split; [exact Heq|]. split; [reflexivity|].
    exists evs. rewrite Harr, take_drop, length_take.
    repeat split. lia.
  - destruct (Hko Hgt) as (r & sock' & out & Heq & Hr & Hfd).
    exists r, sock', out. split; [exact Heq|]. split; [exact Hfd|].
    destruct Hr as [-> | [e ->]]; exact Hgt.
Qed.

(** When the stream starts with [data], reading [length data] bytes returns
    exactly [data] and leaves what follows, however the stream is cut into
    segments. *)
Lemma recv_all_prefix (sock : socket) (size : Z) (data rest : bytes) :
  Z.to_nat size = length data ->
  arriving (inbound sock) = data ++ rest ->
  exists evs,
    recv_all sock size = Some (Ret (Some data), set_inbound sock evs, [])
    /\ arriving evs = rest.
Proof.
  intros Hsize Hstream. unfold recv_all.
  destruct (recv_all_loop_spec (Z.to_nat size) sock size [])
    as [Hok _]; [simpl; lia|].
  simpl in Hok. rewrite Nat.sub_0_r, Hstream in Hok.
  destruct Hok as (evs & Heq & Harr); [rewrite length_app; lia|].
  exists evs. rewrite Heq, Harr, Hsize.
  rewrite take_app_length, drop_app_length. auto.
Qed.

(** What holds of the exact read: for [n >= 0] it returns the first [n]
    bytes of the stream, a string of length exactly [n], as soon as [n]
    bytes arrive before the stream closes, times out or fails, in whatever
    segments they come, one byte at a time included; otherwise it returns
    [None] or raises, and never a shorter string. *)
Lemma recv_all_outcome (sock : socket) (n : Z) :
  0 <= n ->
  (exists r sock' out,
     recv_all sock n = Some (r, sock', out)
     /\ match r with
        | Ret (Some data) =>
            Z.of_nat (length data) = n
            /\ data = take (Z.to_nat n) (arriving (inbound sock))
            /\ n <= Z.of_nat (length (arriving (inbound sock)))
        | _ => Z.of_nat (length (arriving (inbound sock))) < n
        end)
  /\ (forall bs : bytes,
        inbound sock = byte_by_byte bs ->
        n <= Z.of_nat (length bs) ->
        exists sock',
          recv_all sock n
          = Some (Ret (Some (take (Z.to_nat n) bs)), sock', [])).
Proof.
  intros Hn. split.
  - destruct (recv_all_total sock n) as (r & sock' & out & Heq & _ & Hr).
    exists r, sock', out. split; [exact Heq|].
    destruct r as [[data|]|e]; [|lia|lia].
    destruct Hr as (evs & _ & Hstream & Hlen & _). rewrite Hstream.
    rewrite <- Hlen, take_app_length, length_app. repeat split; lia.
  - intros bs Hin Hle.
    destruct (recv_all_prefix sock n (take (Z.to_nat n) bs) (drop (Z.to_nat n) bs))
      as (evs & Heq & _).
    + rewrite length_take. lia.
    + rewrite Hin, arriving_byte_by_byte, take_drop. reflexivity.
    + exists (set_inbound sock evs). exact Heq.
Qed.

(** What the exact read does when a [recv] fails before the bytes are
    there. After a time-out on a standing connection the handler prints its
    warning and [None] is returned. After a reset the handler's own
    [getpeername()] raises, the connection being gone. *)
Lemma recv_all_failure (sock : socket) (n : Z) (e : exn)
    (evs : list recv_event) :
  0 < n ->
  inbound sock = RecvFails e :: evs ->
  recv_all sock n
  = Some (fst (recv_all_except (after_failure (set_inbound sock evs) e) e),
          after_failure (set_inbound sock evs) e,
          snd (recv_all_except (after_failure (set_inbound sock evs) e) e)).
Proof.
  intros Hn Hin. unfold recv_all.
  destruct (Z.to_nat n) as [|fuel] eqn:Hfuel; [lia|].
  cbn [recv_all_loop length].
  replace (Z.of_nat 0 <? n) with true by (symmetry; apply Z.ltb_lt; lia).
  unfold recv. rewrite Hin.
  destruct (recv_all_except (after_failure (set_inbound sock evs) e) e).
  reflexivity.
Qed.

(** C7. The exact read does not return [None] on every receive error, as
    its handlers mean it to. When a [recv] meets a reset of the connection
    before the [n] bytes are there, the handler builds its line with
    [sock.getpeername()], which raises [OSError] on the socket that is no
    longer connected: [recv_all] raises out of the handler, and nothing is
    printed. *)
Theorem recv_all_reset_raises (sock : socket) (n : Z)
    (evs : list recv_event) :
  0 < n ->
  inbound sock = RecvFails ConnectionResetError :: evs ->
  exists sock',
    recv_all sock n = Some (Raise socket_error, sock', [])
    /\ connected sock' = false.
Proof.
  intros Hn Hin. rewrite (recv_all_failure sock n _ evs Hn Hin).
  assert (connected (after_failure (set_inbound sock evs) ConnectionResetError)
          = false) as Hgone
    by (cbn [connected after_failure ends_connection negb];
        apply andb_false_r).
  unfold recv_all_except, getpeername. rewrite Hgone.
  eexists. split; [reflexivity | exact Hgone].
Qed.

Lemma recv_all_reset_raises_witness :
  exists sock',
    recv_all (demo_socket [RecvFails ConnectionResetError]) 1
    = Some (Raise socket_error, sock', [])
    /\ connected sock' = false.
Proof.
  apply (recv_all_reset_raises (demo_socket [RecvFails ConnectionResetError])
           1 []); [lia | reflexivity].
Defined.

(** A time-out, by contrast, is reported and answered with [None]. *)
Lemma recv_all_timeout_none (sock : socket) (n : Z) (evs : list recv_event) :
  0 < n ->
  connected sock = true ->
  inbound sock = RecvFails socket_timeout :: evs ->
  exists sock',
    recv_all sock n
    = Some (Ret None, sock', [WARN_socket_timeout (peer sock)])
    /\ connected sock' = true.
Proof.
  intros Hn Hconn Hin. rewrite (recv_all_failure sock n _ evs Hn Hin).
  assert (connected (after_failure (set_inbound sock evs) socket_timeout)
          = true) as Hstands
    by (cbn [connected after_failure set_inbound ends_connection negb];
        rewrite Hconn; reflexivity).
  unfold recv_all_except, getpeername. rewrite Hstands.
  eexists. split; [reflexivity | exact Hstands].
Qed.

(** ** The inbound loop of a session *)

Lemma prints_nil (s : CameraServer) : prints s [] = s.
Proof. destruct s. unfold prints. simpl. now rewrite app_nil_r. Qed.

Lemma byte_eqb_refl (b : byte) : Byte.eqb b b = true.
Proof. now apply Byte.byte_dec_lb. Qed.

Lemma byte_eqb_neq (b c : byte) : b <> c -> Byte.eqb b c = false.
Proof.
  intros Hne. destruct (Byte.eqb b c) eqn:E; [|reflexivity].
  apply Byte.byte_dec_bl in E. contradiction.
Qed.

(** What [capture_and_encode] returns for a non-empty payload that fits the
    length field: the tag, the length on four bytes, the payload. *)
Lemma capture_and_encode_frame (cam : Camera) (P : bytes) :
  P <> [] -> Z.of_nat (length P) < 2 ^ 32 ->
  exists len,
    Struct.pack_L (Z.of_nat (length P)) = Ret len
    /\ length len = 4%nat
    /\ Struct.unpack_L len = Ret (Z.of_nat (length P))
    /\ capture_and_encode cam (Some P)
       = Ret (Some ("c"%byte :: len ++ P),
              mkCamera (device cam) (jpeg_quality cam) (camera_num cam)
                       (Some ("c"%byte :: len ++ P))).
Proof.
  intros Hne Hlen.
  destruct (unpack_L_pack_L (Z.of_nat (length P))) as (len & Hp & Hl & Hu);
    [lia|].
  exists len. repeat split; try assumption.
  destruct P as [|b bs]; [congruence|].
  unfold capture_and_encode. rewrite Hp. reflexivity.
Qed.

(** A turn of the inbound loop that meets a whole camera frame stores its
    payload under the peer's address and stops right after the frame. *)
Lemma recv_data_turn_camera (unpack_d : bytes -> Q) (s : CameraServer)
    (sock : socket) (a : addr) (clk : clock) (len P rest : bytes) :
  length len = 4%nat ->
  Struct.unpack_L len = Ret (Z.of_nat (length P)) ->
  arriving (inbound sock) = "c"%byte :: len ++ P ++ rest ->
  exists evs,
    recv_data_turn unpack_d s sock a clk
      = Some (Continue, put_frame s a P, set_inbound sock evs, clk)
    /\ arriving evs = rest.
Proof.
  intros Hl Hu Hstream. unfold recv_data_turn.
  destruct (recv_all_prefix sock Struct.calcsize_c ["c"%byte] (len ++ P ++ rest))
    as (evs1 & H1 & A1); [reflexivity | exact Hstream |].
  rewrite H1. cbn [mbind option_bind]. rewrite prints_nil.
  cbn [Struct.unpack_c]. rewrite byte_eqb_refl.
  destruct (recv_all_prefix (set_inbound sock evs1) Struct.calcsize_L len (P ++ rest))
    as (evs2 & H2 & A2); [rewrite Hl; reflexivity | exact A1 |].
  rewrite H2. cbn [mbind option_bind]. rewrite prints_nil, Hu.
  destruct (recv_all_prefix (set_inbound (set_inbound sock evs1) evs2)
              (Z.of_nat (length P)) P rest)
    as (evs3 & H3 & A3); [lia | exact A2 |].
  rewrite H3. cbn [mbind option_bind]. rewrite prints_nil.
  exists evs3. split; [reflexivity | exact A3].
Qed.

(** C1. For every payload [P] with [0 <= |P| <= 2^32 - 1], the camera
    frame of [P], tag byte [c], then the length as [struct.pack('>L', |P|)]
    gives it, four bytes big-endian, then the payload, is decoded by a turn
    of the server's inbound loop, in whatever segments it arrives, to
    exactly [P]: the turn stores [P] as the peer's latest frame and leaves
    the stream right behind the frame. For a non-empty payload this frame is
    what the peer's [capture_and_encode] builds. *)
Theorem camera_frame_round_trip (unpack_d : bytes -> Q) (P : bytes) :
  Z.of_nat (length P) <= 2 ^ 32 - 1 ->
  Struct.pack_L (Z.of_nat (length P))
  = Ret (Struct.be_bytes 4 (Z.of_nat (length P)))
  /\ camera_frame P
     = "c"%byte :: Struct.be_bytes 4 (Z.of_nat (length P)) ++ P
  /\ (forall cam : Camera,
        P <> [] ->
        exists cam',
          capture_and_encode cam (Some P) = Ret (Some (camera_frame P), cam'))
  /\ (forall (s : CameraServer) (sock : socket) (a : addr) (clk : clock)
              (rest : bytes),
        arriving (inbound sock) = camera_frame P ++ rest ->
        exists s' sock',
          recv_data_turn unpack_d s sock a clk
          = Some (Continue, s', sock', clk)
          /\ client_camera_data s' !! a = Some P
          /\ arriving (inbound sock') = rest).
Proof.
  intros Hlen.
  assert (Struct.pack_L (Z.of_nat (length P))
          = Ret (Struct.be_bytes 4 (Z.of_nat (length P)))) as Hpack.
  { unfold Struct.pack_L.
    replace ((0 <=? Z.of_nat (length P)) && (Z.of_nat (length P) <? 2 ^ 32))
      with true by (symmetry; apply andb_true_iff; lia).
    reflexivity. }
  split; [exact Hpack|]. split; [reflexivity|]. split.
  - intros cam Hne. destruct P as [|b bs]; [congruence|].
    unfold capture_and_encode. rewrite Hpack. eexists. reflexivity.
  - intros s sock a clk rest Hstream.
    destruct (recv_data_turn_camera unpack_d s sock a clk
                (Struct.be_bytes 4 (Z.of_nat (length P))) P rest)
      as (evs & Hturn & Harr).
    { apply be_bytes_length. }
    { apply unpack_L_be_bytes. lia. }
    { rewrite Hstream. unfold camera_frame, Struct.pack_c. cbn [app].
      now rewrite <- app_assoc. }
    exists (put_frame s a P), (set_inbound sock evs).
    split; [exact Hturn|]. split; [|exact Harr].
    unfold put_frame. simpl. apply lookup_insert_eq.
Qed.

(** The two ends of the range: the empty payload, and a payload of two
    bytes that arrives one byte at a time. *)
Lemma camera_frame_round_trip_witness :
  (exists s' sock',
     recv_data_turn demo_unpack_d (CameraServer_init 60)
       (demo_socket [Packet ["c"; x00; x00; x00; x00; "t"]%byte])
       demo_peer (demo_clock 0)
     = Some (Continue, s', sock', demo_clock 0)
     /\ client_camera_data s' !! demo_peer = Some []
     /\ arriving (inbound sock') = ["t"%byte])
  /\ (exists s' sock',
        recv_data_turn demo_unpack_d (CameraServer_init 60)
          (demo_socket (byte_by_byte ["c"; x00; x00; x00; x02; "J"; "F"]%byte))
          demo_peer (demo_clock 0)
        = Some (Continue, s', sock', demo_clock 0)
        /\ client_camera_data s' !! demo_peer = Some ["J"; "F"]%byte
        /\ arriving (inbound sock') = []).
Proof.
  split.
  - destruct (camera_frame_round_trip demo_unpack_d []) as (_ & _ & _ & H);
      [simpl; lia|].
    apply H. reflexivity.
  - destruct (camera_frame_round_trip demo_unpack_d ["J"; "F"]%byte)
      as (_ & _ & _ & H); [simpl; lia|].
    apply H. reflexivity.
Defined.

(** The peer itself never sends a frame with an empty payload: for [b'']
    as for [None], [capture_and_encode] returns [None]. *)
Lemma capture_and_encode_nothing (cam : Camera) :
  capture_and_encode cam (Some []) = Ret (None, cam)
  /\ capture_and_encode cam None = Ret (None, cam).
Proof. split; reflexivity. Qed.

(** The server side would accept a frame of length zero; it is the peer
    that never sends one. *)
Lemma recv_data_turn_empty_frame (unpack_d : bytes -> Q) (s : CameraServer)
    (sock : socket) (a : addr) (clk : clock) (rest : bytes) :
  arriving (inbound sock) = ["c"; x00; x00; x00; x00]%byte ++ rest ->
  exists evs,
    recv_data_turn unpack_d s sock a clk
      = Some (Continue, put_frame s a [], set_inbound sock evs, clk)
    /\ arriving evs = rest.
Proof.
  intros Hstream.
  apply (recv_data_turn_camera unpack_d s sock a clk [x00; x00; x00; x00] [] rest);
    [reflexivity | reflexivity | exact Hstream].
Qed.

(** A turn that meets a timing ping records the latency, in milliseconds,
    in the shared history and in the peer's own slot. *)
Lemma recv_data_turn_timing (unpack_d : bytes -> Q) (s : CameraServer)
    (sock : socket) (a : addr) (clk : clock) (ts rest : bytes) :
  length ts = 8%nat ->
  arriving (inbound sock) = "t"%byte :: ts ++ rest ->
  exists evs,
    recv_data_turn unpack_d s sock a clk
      = Some (Continue,
              put_latency s a
                ((fst (time_time clk) - unpack_d ts) * 1000)%Q,
              set_inbound sock evs, snd (time_time clk))
    /\ arriving evs = rest.
Proof.
  intros Hl Hstream. unfold recv_data_turn.
  destruct (recv_all_prefix sock Struct.calcsize_c ["t"%byte] (ts ++ rest))
    as (evs1 & H1 & A1); [reflexivity | exact Hstream |].
  rewrite H1. cbn [mbind option_bind]. rewrite prints_nil.
  cbn [Struct.unpack_c].
  replace (Byte.eqb "t" "c") with false by reflexivity.
  rewrite byte_eqb_refl.
  destruct (recv_all_prefix (set_inbound sock evs1) Struct.calcsize_d ts rest)
    as (evs2 & H2 & A2); [rewrite Hl; reflexivity | exact A1 |].
  rewrite H2. cbn [mbind option_bind]. rewrite prints_nil.
  exists evs2. split; [reflexivity | exact A2].
Qed.

(** C6. A tag byte other than [c] and [t] makes the turn print the warning
    and nothing else: the session's registry entries, the running flag and
    the socket are as before, the stream stands right behind the tag, and
    the loop goes on with the next turn from there. *)
Theorem unknown_tag_is_skipped (unpack_d : bytes -> Q) (s : CameraServer)
    (sock : socket) (a : addr) (clk : clock) (tag : byte) (rest : bytes) :
  tag <> "c"%byte -> tag <> "t"%byte ->
  arriving (inbound sock) = tag :: rest ->
  exists evs,
    let s' := print s (WARN_unexpected_type tag a) in
    let sock' := set_inbound sock evs in
    recv_data_turn unpack_d s sock a clk = Some (Continue, s', sock', clk)
    /\ arriving (inbound sock') = rest
    /\ closed sock' = closed sock
    /\ active_clients s' = active_clients s
    /\ client_camera_data s' = client_camera_data s
    /\ client_latency_time s' = client_latency_time s
    /\ recv_data_running s' = recv_data_running s
    /\ stdout s' = stdout s ++ [WARN_unexpected_type tag a]
    /\ forall fuel,
         recv_data_running s = true ->
         recv_data_loop unpack_d (S fuel) s sock a clk
         = recv_data_loop unpack_d fuel s' sock' a clk.
Proof.
  intros Hc Ht Hstream.
  destruct (recv_all_prefix sock Struct.calcsize_c [tag] rest)
    as (evs & H1 & A1); [reflexivity | exact Hstream |].
  assert (recv_data_turn unpack_d s sock a clk
          = Some (Continue, print s (WARN_unexpected_type tag a),
                  set_inbound sock evs, clk)) as Hturn.
  { unfold recv_data_turn. rewrite H1. cbn [mbind option_bind].
    rewrite prints_nil. cbn [Struct.unpack_c].
    rewrite (byte_eqb_neq _ _ Hc), (byte_eqb_neq _ _ Ht). reflexivity. }
  exists evs. cbv zeta. repeat split; try assumption.
  intros fuel Hrun. cbn [recv_data_loop]. rewrite Hrun, Hturn. reflexivity.
Qed.

Lemma unknown_tag_is_skipped_witness :
  exists evs,
    recv_data_turn demo_unpack_d (CameraServer_init 60)
      (demo_socket [Packet ["x"; "c"]%byte]) demo_peer (demo_clock 0)
    = Some (Continue,
            print (CameraServer_init 60) (WARN_unexpected_type "x"%byte demo_peer),
            set_inbound (demo_socket [Packet ["x"; "c"]%byte]) evs,
            demo_clock 0)
    /\ arriving evs = ["c"%byte].
Proof.
  destruct (unknown_tag_is_skipped demo_unpack_d (CameraServer_init 60)
              (demo_socket [Packet ["x"; "c"]%byte]) demo_peer
              (demo_clock 0) "x"%byte ["c"%byte])
    as (evs & H & A & _); [discriminate | discriminate | reflexivity |].
  exists evs. split; [exact H | exact A].
Defined.

(** Every turn of the inbound loop returns; it leaves the list of live
    sockets, the running flag and the entries of other peers alone, the
    socket keeps its descriptor, and a turn that continues has taken at
    least its tag byte off the stream. *)
Lemma recv_data_turn_total (unpack_d : bytes -> Q) (s : CameraServer)
    (sock : socket) (a : addr) (clk : clock) :
  exists fl s' sock' clk',
    recv_data_turn unpack_d s sock a clk = Some (fl, s', sock', clk')
    /\ fileno sock' = fileno sock
    /\ active_clients s' = active_clients s
    /\ recv_data_running s' = recv_data_running s
    /\ (forall a', a' <> a ->
          client_camera_data s' !! a' = client_camera_data s !! a'
          /\ client_latency_time s' !! a' = client_latency_time s !! a')
    /\ (fl = Continue ->
        (length (arriving (inbound sock'))
         < length (arriving (inbound sock)))%nat).
Proof.
  unfold recv_data_turn.
  destruct (recv_all_total sock Struct.calcsize_c)
    as ([[tag|]|e1] & k1 & out1 & H1 & F1 & R1);
    rewrite H1; cbn [mbind option_bind];
    try (eexists _, _, _, _; split; [reflexivity|];
         repeat split; try assumption; congruence).
  destruct R1 as (evs1 & -> & A1 & L1 & _).
  destruct tag as [|tag [|? ?]]; try (simpl in L1; discriminate L1).
  cbn [Struct.unpack_c].
  assert (length (arriving evs1) < length (arriving (inbound sock)))%nat as M1
    by (rewrite A1, length_app; simpl; lia).
  destruct (Byte.eqb tag "c") eqn:Ec; [|destruct (Byte.eqb tag "t") eqn:Et].
  - (* camera frame *)
    destruct (recv_all_total (set_inbound sock evs1) Struct.calcsize_L)
      as ([[len|]|e2] & k2 & out2 & H2 & F2 & R2);
      rewrite H2; cbn [mbind option_bind];
      try (eexists _, _, _, _; split; [reflexivity|];
           repeat split; try assumption; congruence).
    destruct R2 as (evs2 & -> & A2 & L2 & _). cbn [inbound set_inbound] in A2.
    assert ((length len =? 4)%nat = true) as L4 by (rewrite L2; reflexivity).
    unfold Struct.unpack_L. rewrite L4.
    destruct (recv_all_total (set_inbound (set_inbound sock evs1) evs2)
                (Struct.be_uint len))
      as ([[payload|]|e3] & k3 & out3 & H3 & F3 & R3);
      rewrite H3; cbn [mbind option_bind];
      try (eexists _, _, _, _; split; [reflexivity|];
           repeat split; try assumption; congruence).
    destruct R3 as (evs3 & -> & A3 & _ & _). cbn [inbound set_inbound] in A3.
    eexists _, _, _, _. split; [reflexivity|].
    split; [reflexivity|]. split; [reflexivity|]. split; [reflexivity|]. split.
    + intros a' Ha. split; [|reflexivity].
      unfold put_frame. simpl. now apply lookup_insert_ne.
    + intros _. cbn [inbound set_inbound].
      rewrite A2, A3 in M1. rewrite !length_app in M1. lia.
  - (* timing ping *)
    destruct (recv_all_total (set_inbound sock evs1) Struct.calcsize_d)
      as ([[ts|]|e2] & k2 & out2 & H2 & F2 & R2);
      rewrite H2; cbn [mbind option_bind];
      try (eexists _, _, _, _; split; [reflexivity|];
           repeat split; try assumption; congruence).
    destruct R2 as (evs2 & -> & A2 & _ & _). cbn [inbound set_inbound] in A2.
    eexists _, _, _, _. split; [reflexivity|].
    split; [reflexivity|]. split; [reflexivity|]. split; [reflexivity|]. split.
    + intros a' Ha. split; [reflexivity|].
      unfold put_latency. simpl. now apply lookup_insert_ne.
    + intros _. cbn [inbound set_inbound].
      rewrite A2 in M1. rewrite length_app in M1. lia.
  - (* anything else *)
    eexists _, _, _, _. split; [reflexivity|].
    repeat split; try reflexivity. intros _. exact M1.
Qed.

(** The inbound loop ends: more fuel than bytes to come is enough. *)
Lemma recv_data_loop_total (unpack_d : bytes -> Q) (a : addr) (fuel : nat) :
  forall (s : CameraServer) (sock : socket) (clk : clock),
    (length (arriving (inbound sock)) < fuel)%nat ->
    exists raised s' sock' clk',
      recv_data_loop unpack_d fuel s sock a clk
        = Some (raised, s', sock', clk')
      /\ fileno sock' = fileno sock
      /\ active_clients s' = active_clients s
      /\ recv_data_running s' = recv_data_running s
      /\ (forall a', a' <> a ->
            client_camera_data s' !! a' = client_camera_data s !! a'
            /\ client_latency_time s' !! a' = client_latency_time s !! a').
Proof.
  induction fuel as [|fuel IH]; intros s sock clk Hfuel; [lia|].
  cbn [recv_data_loop].
  destruct (recv_data_running s) eqn:Hrun.
  2:{ exists None, s, sock, clk. repeat split; auto. }
  destruct (recv_data_turn_total unpack_d s sock a clk)
    as (fl & s1 & k1 & clk1 & Hturn & Hfd & Hact & Hflag & Hothers & Hless).
  rewrite Hturn. cbn [mbind option_bind].
  destruct fl as [| |e].
  - destruct (IH s1 k1 clk1)
      as (raised & s2 & k2 & clk2 & Hloop & Hfd2 & Hact2 & Hflag2 & Hothers2).
    { specialize (Hless eq_refl). lia. }
    exists raised, s2, k2, clk2. rewrite Hloop. split; [reflexivity|].
    split; [congruence|]. split; [congruence|]. split; [congruence|].
    intros a' Ha. destruct (Hothers a' Ha) as [Hc1 Hl1].
    destruct (Hothers2 a' Ha) as [Hc2 Hl2].
    rewrite Hc2, Hl2, Hc1, Hl1. split; reflexivity.
  - exists None, s1, k1, clk1.
    split; [reflexivity|]. split; [exact Hfd|]. split; [exact Hact|].
    split; [congruence | exact Hothers].
  - exists (Some e), s1, k1, clk1.
    split; [reflexivity|]. split; [exact Hfd|]. split; [exact Hact|].
    split; [congruence | exact Hothers].
Qed.

(** *** The [finally] clause *)

Lemma list_remove_first_absent (x : nat) (l : list nat) :
  x ∉ l -> list_remove_first x l = l.
Proof.
  induction l as [|y l IH]; intros Hx; [reflexivity|]. simpl.
  apply not_elem_of_cons in Hx as [Hxy Hxl].
  destruct (decide (y = x)); [congruence|]. now rewrite IH.
Qed.

Lemma list_remove_first_subset (x y : nat) (l : list nat) :
  y ∈ list_remove_first x l -> y ∈ l.
Proof.
  induction l as [|z l IH]; simpl; [auto|].
  destruct (decide (z = x)); rewrite !elem_of_cons; intuition.
Qed.

Lemma list_remove_first_NoDup (x : nat) (l : list nat) :
  NoDup l -> NoDup (list_remove_first x l) /\ x ∉ list_remove_first x l.
Proof.
  induction 1 as [|y l Hy Hl IH]; simpl.
  - split; [constructor | apply not_elem_of_nil].
  - destruct (decide (y = x)) as [->|Hne]; [split; assumption|].
    destruct IH as [IH1 IH2]. split.
    + constructor; [|exact IH1].
      intros Hin. apply Hy. eapply list_remove_first_subset, Hin.
    + apply not_elem_of_cons. split; [congruence | exact IH2].
Qed.

Lemma list_remove_first_other (x y : nat) (l : list nat) :
  y <> x -> y ∈ l -> y ∈ list_remove_first x l.
Proof.
  intros Hne. induction l as [|z l IH]; simpl; [auto|].
  destruct (decide (z = x)) as [->|Hz]; rewrite !elem_of_cons; intuition.
Qed.

(** After the locked block the peer is gone from the three structures, and
    nobody else is. *)
Lemma registry_cleanup_spec (s : CameraServer) (sock : socket) (a : addr) :
  let s' := registry_cleanup s sock a in
  active_clients s' = list_remove_first (fileno sock) (active_clients s)
  /\ client_camera_data s' = delete a (client_camera_data s)
  /\ client_latency_time s' = delete a (client_latency_time s)
  /\ recv_data_running s' = recv_data_running s
  /\ latency_history s' = latency_history s
  /\ send_camera_request s' = send_camera_request s
  /\ stdout s' = stdout s.
Proof.
  unfold registry_cleanup.
  destruct (decide (fileno sock ∈ active_clients s)) as [Hin|Hout];
  cbn [client_camera_data with_active_clients];
  destruct (decide (is_Some (client_camera_data s !! a))) as [Hc|Hc];
  cbn [client_latency_time with_client_camera_data with_active_clients];
  destruct (decide (is_Some (client_latency_time s !! a))) as [Hl|Hl];
  cbn;
  repeat split;
  try (symmetry; apply list_remove_first_absent; assumption);
  try (symmetry; apply delete_id; apply eq_None_not_Some; assumption).
Qed.

Lemma recv_data_finally_eq (s : CameraServer) (sock : socket) (a : addr) :
  recv_data_finally s sock a
  = (print (registry_cleanup s sock a) (INFO_client_disconnected a), close sock).
Proof.
  unfold recv_data_finally. cbn [print active_clients].
  destruct (active_clients (registry_cleanup s sock a)); reflexivity.
Qed.

Lemma registry_cleanup_absent (s : CameraServer) (sock : socket) (a : addr) :
  fileno sock ∉ active_clients s ->
  client_camera_data s !! a = None ->
  client_latency_time s !! a = None ->
  registry_cleanup s sock a = s.
Proof.
  intros Hs Hc Hl. unfold registry_cleanup.
  destruct (decide (fileno sock ∈ active_clients s)); [contradiction|].
  destruct (decide (is_Some (client_camera_data s !! a))) as [[? E]|_];
    [congruence|].
  destruct (decide (is_Some (client_latency_time s !! a))) as [[? E]|_];
    [congruence|].
  reflexivity.
Qed.

Lemma registry_cleanup_gone (s : CameraServer) (sock : socket) (a : addr) :
  let s' := registry_cleanup s sock a in
  client_camera_data s' !! a = None
  /\ client_latency_time s' !! a = None
  /\ (NoDup (active_clients s) -> fileno sock ∉ active_clients s').
Proof.
  destruct (registry_cleanup_spec s sock a) as (Ha & Hc & Hl & _).
  cbv zeta. rewrite Ha, Hc, Hl. repeat split; try apply lookup_delete_eq.
  intros Hnd. now apply list_remove_first_NoDup.
Qed.

Lemma list_remove_first_split (x : nat) (l : list nat) :
  x ∈ l ->
  exists before after,
    l = before ++ x :: after
    /\ (x ∉ before)
    /\ list_remove_first x l = before ++ after.
Proof.
  induction l as [|y l IH]; intros Hin; [apply elem_of_nil in Hin; contradiction|].
  cbn [list_remove_first]. destruct (decide (y = x)) as [->|Hne].
  - exists [], l. split; [reflexivity|]. split; [apply not_elem_of_nil | reflexivity].
  - apply elem_of_cons in Hin as [Heq | Hin]; [congruence|].
    destruct (IH Hin) as (before & after & Hl & Hb & Hr).
    exists (y :: before), after. rewrite Hl at 1. rewrite Hr.
    split; [reflexivity|]. split; [|reflexivity].
    apply not_elem_of_cons. split; [congruence | exact Hb].
Qed.

(** What the clean-up does to the list of live sockets: it takes out the
    first occurrence of the socket and leaves every other element where it
    is. *)
Lemma registry_cleanup_list (s : CameraServer) (sock : socket) (a : addr) :
  (fileno sock ∈ active_clients s ->
     exists before after,
       active_clients s = before ++ fileno sock :: after
       /\ (fileno sock ∉ before)
       /\ active_clients (registry_cleanup s sock a) = before ++ after)
  /\ (fileno sock ∉ active_clients s ->
      active_clients (registry_cleanup s sock a) = active_clients s).
Proof.
  destruct (registry_cleanup_spec s sock a) as (Ha & _). cbv zeta in Ha.
  rewrite Ha. split.
  - apply list_remove_first_split.
  - apply list_remove_first_absent.
Qed.

(** C5. The [finally] clause of [recv_data] runs however the loop was left
    (closed stream, time-out, flag cleared, exception). From any state it
    takes the first occurrence of the peer's socket out of the list of live
    sockets and leaves the other sockets in their places, so that the socket
    is gone from the list, a socket being listed once; it deletes the peer's
    address from the latest-frame map and from the latest-latency map and
    leaves the entries of the other peers; the history, the request and the
    flag are untouched, and the socket is closed. Each removal is guarded by
    a membership test, so running the block again, or on a state where the
    entries are already absent, changes nothing. Hence once a session's
    inbound thread has returned, none of the three structures mentions the
    peer, and they hold for the other peers what they held before. *)
Theorem session_cleanup (unpack_d : bytes -> Q) (sock : socket) (a : addr) :
  (forall s : CameraServer,
     let s' := fst (recv_data_finally s sock a) in
     (fileno sock ∈ active_clients s ->
        exists before after,
          active_clients s = before ++ fileno sock :: after
          /\ (fileno sock ∉ before)
          /\ active_clients s' = before ++ after)
     /\ (fileno sock ∉ active_clients s ->
         active_clients s' = active_clients s)
     /\ (NoDup (active_clients s) -> fileno sock ∉ active_clients s')
     /\ client_camera_data s' = delete a (client_camera_data s)
     /\ client_latency_time s' = delete a (client_latency_time s)
     /\ client_camera_data s' !! a = None
     /\ client_latency_time s' !! a = None
     /\ latency_history s' = latency_history s
     /\ send_camera_request s' = send_camera_request s
     /\ closed (snd (recv_data_finally s sock a)) = true)
  /\ (forall s : CameraServer,
        NoDup (active_clients s) ->
        registry_cleanup (registry_cleanup s sock a) sock a
        = registry_cleanup s sock a)
  /\ (forall s : CameraServer,
        fileno sock ∉ active_clients s ->
        client_camera_data s !! a = None ->
        client_latency_time s !! a = None ->
        registry_cleanup s sock a = s)
  /\ (forall (fuel : nat) (s : CameraServer) (clk : clock),
        NoDup (active_clients s) ->
        (length (arriving (inbound sock)) < fuel)%nat ->
        exists s' sock' clk',
          recv_data unpack_d fuel s sock a clk = Some (s', sock', clk')
          /\ (fileno sock ∈ active_clients s ->
              exists before after,
                active_clients s = before ++ fileno sock :: after
                /\ (fileno sock ∉ before)
                /\ active_clients s' = before ++ after)
          /\ (fileno sock ∉ active_clients s ->
              active_clients s' = active_clients s)
          /\ (fileno sock ∉ active_clients s')
          /\ client_camera_data s' !! a = None
          /\ client_latency_time s' !! a = None
          /\ closed sock' = true
          /\ forall a', a' <> a ->
               client_camera_data s' !! a' = client_camera_data s !! a'
               /\ client_latency_time s' !! a' = client_latency_time s !! a').
Proof.
  split; [|split; [|split]].
  - intros s. rewrite recv_data_finally_eq. cbn [fst snd].
    destruct (registry_cleanup_gone s sock a) as (Hc & Hl & Hs).
    destruct (registry_cleanup_list s sock a) as (Hin & Hout).
    destruct (registry_cleanup_spec s sock a)
      as (_ & Hdc & Hdl & _ & Hh & Hr & _).
    cbv zeta in Hdc, Hdl, Hh, Hr.
    cbn [active_clients client_camera_data client_latency_time
         latency_history send_camera_request print].
    repeat split; assumption.
  - intros s Hnd. destruct (registry_cleanup_gone s sock a) as (Hc & Hl & Hs).
    apply registry_cleanup_absent; auto.
  - intros s. apply registry_cleanup_absent.
  - intros fuel s clk Hnd Hfuel. unfold recv_data.
    destruct (recv_data_loop_total unpack_d a fuel
                (print s (INFO_recv_thread_start a)) sock clk Hfuel)
      as (raised & s1 & k1 & clk1 & Hloop & Hfd & Hact & _ & Hothers).
    rewrite Hloop. cbn [mbind option_bind].
    set (s2 := match raised with
               | Some _ => print s1 (ERROR_recv_exception a)
               | None => s1
               end).
    assert (active_clients s2 = active_clients s
            /\ client_camera_data s2 = client_camera_data s1
            /\ client_latency_time s2 = client_latency_time s1)
      as (Hact2 & Hcam2 & Hlat2)
      by (subst s2; destruct raised; repeat split; exact Hact).
    rewrite recv_data_finally_eq.
    destruct (registry_cleanup_gone s2 k1 a) as (Hc & Hl & Hs).
    destruct (registry_cleanup_list s2 k1 a) as (Hin & Hout).
    destruct (registry_cleanup_spec s2 k1 a) as (_ & Hdc & Hdl & _).
    cbv zeta in Hdc, Hdl. rewrite Hfd, Hact2 in Hin, Hout, Hs.
    eexists _, _, _. split; [reflexivity|].
    cbn [active_clients client_camera_data client_latency_time print].
    split; [exact Hin|]. split; [exact Hout|]. split; [exact (Hs Hnd)|].
    split; [exact Hc|]. split; [exact Hl|]. split; [reflexivity|].
    intros a' Ha. destruct (Hothers a' Ha) as [Ho1 Ho2].
    cbn [client_camera_data client_latency_time print] in *.
    rewrite Hdc, Hdl, !lookup_delete_ne, Hcam2, Hlat2 by congruence.
    split; assumption.
Qed.

Lemma session_cleanup_witness :
  exists s' sock' clk',
    recv_data demo_unpack_d 3
      (with_active_clients (CameraServer_init 60) [4; 3; 5]%nat)
      (demo_socket [Packet ["c"; x00]%byte; RecvFails socket_timeout])
      demo_peer (demo_clock 0)
    = Some (s', sock', clk')
    /\ active_clients s' = [4; 5]%nat
    /\ client_camera_data s' !! demo_peer = None
    /\ client_latency_time s' !! demo_peer = None
    /\ closed sock' = true.
Proof.
  destruct (session_cleanup demo_unpack_d
              (demo_socket [Packet ["c"; x00]%byte; RecvFails socket_timeout])
              demo_peer) as (_ & _ & _ & H).
  destruct (H 3%nat (with_active_clients (CameraServer_init 60) [4; 3; 5]%nat)
              (demo_clock 0))
    as (s' & sock' & clk' & Heq & Hin & _ & _ & Hc & Hl & Hclosed & _).
  - cbn [active_clients with_active_clients].
    repeat constructor; rewrite ?elem_of_cons, ?elem_of_nil; intuition lia.
  - simpl. lia.
  - exists s', sock', clk'. split; [exact Heq|].
    split; [|repeat split; assumption].
    destruct Hin as (before & after & Hl0 & Hb & Hr).
    { cbn [active_clients with_active_clients fileno demo_socket].
      rewrite !elem_of_cons. auto. }
    rewrite Hr. cbn [active_clients with_active_clients fileno demo_socket] in *.
    destruct before as [|x [|y before]].
    + discriminate Hl0.
    + injection Hl0 as <- <-. reflexivity.
    + injection Hl0 as <- Hy Hrest. exfalso. apply Hb.
      rewrite !elem_of_cons. auto.
Defined.

(** *** Leaving the loop does not stop the server *)

(** The only session of [demo_server] ends on a closed stream. *)
Lemma demo_session_end :
  exists s' sock' clk',
    recv_data demo_unpack_d 1 demo_server (demo_socket []) demo_peer
              (demo_clock 0) = Some (s', sock', clk')
    /\ active_clients s' = []
    /\ recv_data_running s' = true.
Proof.
  unfold recv_data.
  destruct (recv_data_loop demo_unpack_d 1
              (print demo_server (INFO_recv_thread_start demo_peer))
              (demo_socket []) demo_peer (demo_clock 0))
    as [[[[raised s1] sock1] clk1]|] eqn:Hloop.
  2:{ vm_compute in Hloop. discriminate Hloop. }
  vm_compute in Hloop. injection Hloop as <- <- <- <-.
  cbn [mbind option_bind]. rewrite recv_data_finally_eq.
  eexists _, _, _. split; [reflexivity|].
  cbn [active_clients recv_data_running print].
  match goal with
  | |- context [registry_cleanup ?s ?k ?a] =>
      destruct (registry_cleanup_spec s k a) as (Ha & _ & _ & Hr & _)
  end.
  cbv zeta in Ha, Hr. rewrite Ha, Hr. split; reflexivity.
Qed.

(** The only session ends, the list of live sockets becomes empty, and the
    flag is still set: the claim that the server then stops fails here. *)
Lemma last_peer_leaves_server_runs :
  ~ (forall s' sock' clk',
       recv_data demo_unpack_d 1 demo_server (demo_socket []) demo_peer
                 (demo_clock 0) = Some (s', sock', clk') ->
       active_clients demo_server <> [] ->
       active_clients s' = [] ->
       recv_data_running s' = false).
Proof.
  intros H.
  destruct demo_session_end as (s' & sock' & clk' & Heq & Hempty & Hflag).
  specialize (H s' sock' clk' Heq). rewrite Hflag in H.
  discriminate H; [discriminate | exact Hempty].
Qed.

(** ** The selection *)

(** C3. For every integer [v]: when [v] is outside [1, 9],
    [set_camera_request(v)] leaves the stored request as it was and prints
    the warning; when [v] is in [1, 9] the stored request becomes the byte
    [v], which is what is read back from it, and nothing is printed. The call
    never raises. *)
Theorem set_camera_request_range (s : CameraServer) (v : Z) :
  (1 <= v <= 9 ->
     exists s',
       set_camera_request s v = Ret s'
       /\ Struct.unpack_B (send_camera_request s') = Ret v
       /\ stdout s' = stdout s)
  /\ (v < 1 \/ 9 < v ->
     exists s',
       set_camera_request s v = Ret s'
       /\ send_camera_request s' = send_camera_request s
       /\ stdout s' = stdout s ++ [WARN_invalid_camera_number v]).
Proof.
  unfold set_camera_request. split.
  - intros Hv.
    replace ((1 <=? v) && (v <=? 9)) with true
      by (symmetry; apply andb_true_iff; lia).
    destruct (unpack_B_pack_B v) as (r & Hp & _ & Hu); [lia|].
    rewrite Hp. eexists. split; [reflexivity|]. split; [exact Hu | reflexivity].
  - intros Hv.
    replace ((1 <=? v) && (v <=? 9)) with false
      by (symmetry; apply andb_false_iff; lia).
    eexists. split; [reflexivity|]. split; reflexivity.
Qed.

(** Selecting 5, then trying 0 and 10: the stored request still reads 5. *)
Lemma set_camera_request_range_witness :
  exists s5 s0 s10,
    set_camera_request (CameraServer_init 60) 5 = Ret s5
    /\ Struct.unpack_B (send_camera_request s5) = Ret 5
    /\ set_camera_request s5 0 = Ret s0
    /\ set_camera_request s0 10 = Ret s10
    /\ Struct.unpack_B (send_camera_request s10) = Ret 5.
Proof.
  destruct (set_camera_request_range (CameraServer_init 60) 5) as [H5 _].
  destruct H5 as (s5 & E5 & U5 & _); [lia|].
  destruct (set_camera_request_range s5 0) as [_ H0].
  destruct H0 as (s0 & E0 & R0 & _); [lia|].
  destruct (set_camera_request_range s0 10) as [_ H10].
  destruct H10 as (s10 & E10 & R10 & _); [lia|].
  exists s5, s0, s10. repeat split; try assumption.
  rewrite R10, R0. exact U5.
Defined.

(** ** The latency window *)

Lemma deque_append_cases (d : list Q) (x : Q) :
  (length d <= maxlen)%nat ->
  (length (deque_append d x) <= maxlen)%nat
  /\ ((length d < maxlen)%nat -> deque_append d x = d ++ [x])
  /\ (length d = maxlen -> deque_append d x = drop 1 d ++ [x]).
Proof.
  intros Hd. unfold deque_append. cbv zeta.
  assert (1 <= maxlen)%nat as Hpos by (unfold maxlen; lia).
  rewrite length_app. cbn [length].
  destruct (maxlen <? length d + 1)%nat eqn:E.
  - apply Nat.ltb_lt in E. assert (length d = maxlen) as Hfull by lia.
    assert (drop 1 (d ++ [x]) = drop 1 d ++ [x]) as Hdrop.
    { destruct d; [discriminate Hfull | reflexivity]. }
    rewrite Hdrop, length_app, length_drop. cbn [length].
    split; [lia|]. split; [intros; lia | auto].
  - apply Nat.ltb_ge in E. rewrite length_app. cbn [length].
    split; [lia|]. split; [auto | intros; lia].
Qed.

Lemma deque_append_window (d : list Q) (x : Q) :
  (length d <= maxlen)%nat ->
  deque_append d x = drop (length (d ++ [x]) - maxlen) (d ++ [x]).
Proof.
  intros Hd. destruct (deque_append_cases d x Hd) as (_ & Hlt & Hfull).
  assert (1 <= maxlen)%nat as Hpos by (unfold maxlen; lia).
  rewrite length_app. cbn [length].
  destruct (Nat.eq_dec (length d) maxlen) as [E|E].
  - rewrite (Hfull E), E.
    replace (maxlen + 1 - maxlen)%nat with 1%nat by lia.
    destruct d; [discriminate E | reflexivity].
  - rewrite Hlt by lia.
    replace (length d + 1 - maxlen)%nat with 0%nat by lia. reflexivity.
Qed.

(** Recording samples one after the other keeps the last [maxlen] of all
    the samples recorded so far. *)
Lemma record_latencies_window (a : addr) (samples : list Q) :
  forall (s : CameraServer) (past : list Q),
    latency_history s = drop (length past - maxlen) past ->
    latency_history (record_latencies s a samples)
    = drop (length (past ++ samples) - maxlen) (past ++ samples).
Proof.
  induction samples as [|x samples IH]; intros s past Hs.
  - rewrite app_nil_r. exact Hs.
  - cbn [record_latencies fold_left].
    replace (past ++ x :: samples) with ((past ++ [x]) ++ samples)
      by (rewrite <- app_assoc; reflexivity).
    apply IH. cbn [put_latency latency_history with_latency_history
                   with_client_latency_time].
    rewrite Hs, deque_append_window by (rewrite length_drop; lia).
    rewrite <- drop_app_le by lia.
    rewrite drop_drop. f_equal.
    rewrite !length_app, length_drop, length_app. cbn [length]. lia.
Qed.

Lemma fold_left_Qplus_total (h : list Q) (acc : Q) :
  (fold_left Qplus h acc == acc + total h)%Q.
Proof.
  revert acc. induction h as [|x h IH]; intros acc; simpl.
  - ring.
  - rewrite IH. ring.
Qed.

(** C4. The latency history holds at most 100 samples; a sample recorded
    when it is full pushes out the oldest, so that after any sequence of
    samples the history is the last 100 of them (after 101 samples: all but
    the first). The average that [get_latest_latency_data] returns is the
    sum of the samples in the history divided by their number, 20 for the
    samples 10, 20, 30, and it is 0 when the history is empty. *)
Theorem latency_window_and_average (t : Q) (a : addr) :
  latency_history (CameraServer_init t) = []
  /\ (forall s x,
        latency_history (put_latency s a x)
        = deque_append (latency_history s) x)
  /\ (forall d x,
        (length d <= 100)%nat ->
        (length (deque_append d x) <= 100)%nat
        /\ ((length d < 100)%nat -> deque_append d x = d ++ [x])
        /\ (length d = 100%nat -> deque_append d x = drop 1 d ++ [x]))
  /\ (forall samples,
        latency_history (record_latencies (CameraServer_init t) a samples)
        = drop (length samples - 100) samples)
  /\ (forall samples,
        length samples = 101%nat ->
        latency_history (record_latencies (CameraServer_init t) a samples)
        = drop 1 samples
        /\ length (latency_history
                     (record_latencies (CameraServer_init t) a samples))
           = 100%nat)
  /\ (forall s, latency_history s = [] -> get_latest_latency_data s = 0%Q)
  /\ (forall s,
        latency_history s <> [] ->
        (get_latest_latency_data s
         == total (latency_history s)
            / inject_Z (Z.of_nat (length (latency_history s))))%Q)
  /\ (forall s,
        latency_history s = [10; 20; 30]%Q ->
        (get_latest_latency_data s == 20)%Q).
Proof.
  assert (forall samples,
            latency_history (record_latencies (CameraServer_init t) a samples)
            = drop (length samples - 100) samples) as Hwindow.
  { intros samples.
    apply (record_latencies_window a samples (CameraServer_init t) []).
    reflexivity. }
  split; [reflexivity|]. split; [reflexivity|].
  split; [exact deque_append_cases|]. split; [exact Hwindow|].
  split; [|split; [|split]].
  - intros samples Hlen. rewrite Hwindow, Hlen.
    split; [reflexivity|]. rewrite length_drop, Hlen. reflexivity.
  - intros s Hs. unfold get_latest_latency_data. now rewrite Hs.
  - intros s Hs. unfold get_latest_latency_data.
    destruct (latency_history s) as [|x h] eqn:E; [congruence|].
    rewrite fold_left_Qplus_total. apply Qmult_comp; [ring | reflexivity].
  - intros s Hs. unfold get_latest_latency_data. rewrite Hs. reflexivity.
Qed.

Lemma latency_window_and_average_witness :
  latency_history
    (record_latencies (CameraServer_init 60) demo_peer demo_samples)
  = drop 1 demo_samples
  /\ (get_latest_latency_data
        (record_latencies (CameraServer_init 60) demo_peer [10; 20; 30]%Q)
      == 20)%Q.
Proof.
  destruct (latency_window_and_average 60 demo_peer)
    as (_ & _ & _ & Hw & H101 & _ & _ & Havg).
  split.
  - apply H101. reflexivity.
  - apply Havg. rewrite Hw. reflexivity.
Defined.

(** ** The accept loop *)

Lemma run_display_keeps (st : Acceptor) (k : Z) :
  start_time (snd (run_display st k)) = start_time st
  /\ listening (snd (run_display st k)) = listening st.
Proof.
  unfold run_display.
  destruct (keyboard_processing (main_display st) (server st) k)
    as [[d s]|e]; [|auto].
  destruct (negb (recv_data_running s)); auto.
Qed.

Lemma keyboard_processing_clients (d : Display) (s : CameraServer) (k : Z) :
  forall d' s',
    keyboard_processing d s k = Ret (d', s') ->
    active_clients s' = active_clients s.
Proof.
  intros d' s'. unfold keyboard_processing, set_camera_request.
  destruct (k =? ord_q); [intros [= <- <-]; reflexivity|].
  destruct ((ord_1 <=? k) && (k <=? ord_9)).
  - destruct ((1 <=? k - ord_0) && (k - ord_0 <=? 9)).
    + destruct (Struct.pack_B (k - ord_0)); [|discriminate].
      intros [= <- <-]. reflexivity.
    + intros [= <- <-]. reflexivity.
  - destruct ((k =? ord_r) || (k =? ord_R)); intros [= <- <-]; reflexivity.
Qed.

Lemma run_display_clients (st : Acceptor) (k : Z) :
  active_clients (server (snd (run_display st k))) = active_clients (server st).
Proof.
  unfold run_display.
  destruct (keyboard_processing (main_display st) (server st) k)
    as [[d s]|e] eqn:E; [|reflexivity].
  apply keyboard_processing_clients in E.
  destruct (negb (recv_data_running s)); exact E.
Qed.

(** The idle turn: [accept] times out, nobody is connected, the limit is
    exceeded. *)
Lemma run_loop_idle (st : Acceptor) (ev : run_event) (script : list run_event) :
  recv_data_running (server st) = true ->
  accepted ev = Raise socket_timeout ->
  active_clients (server st) = [] ->
  (inject_Z timeout_limit < fst (time_time (wall st)) - start_time st)%Q ->
  run_loop (ev :: script) st
  = Some (None,
          mkAcceptor
            (with_recv_data_running
               (print (server st) (INFO_nobody_connected timeout_limit)) false)
            (main_display st) (start_time st) (snd (time_time (wall st)))
            (listening st) (threads st)).
Proof.
  intros Hrun Hacc Hnone Hlate.
  cbn [run_loop]. rewrite Hrun. unfold run_turn. rewrite Hacc, Hnone.
  unfold time_time in *. cbn [fst snd] in *.
  assert (Qle_bool (reading (wall st) (calls (wall st)) - start_time st)
                   (inject_Z timeout_limit) = false) as Hle.
  { destruct (Qle_bool _ _) eqn:E; [|reflexivity].
    apply Qle_bool_iff in E. apply Qle_not_lt in E. contradiction. }
  cbn [start_time server main_display listening threads].
  rewrite Hle. reflexivity.
Qed.

(** C9. In a turn of the accept loop in which [accept] times out, nobody is
    connected, and more than [timeout_limit] = 60 seconds have passed since
    [start_time], the loop prints the notice, clears the running flag and is
    left; [run] then closes the listening socket. [start_time] is the time at
    which [run] began or, later, the time of the last accepted connection. *)
Theorem idle_timeout_stops_acceptor :
  timeout_limit = 60
  /\ (forall (st : Acceptor) (ev : run_event) (script : list run_event),
        recv_data_running (server st) = true ->
        accepted ev = Raise socket_timeout ->
        active_clients (server st) = [] ->
        (inject_Z timeout_limit < fst (time_time (wall st)) - start_time st)%Q ->
        exists st',
          run_loop (ev :: script) st = Some (None, st')
          /\ recv_data_running (server st') = false
          /\ stdout (server st')
             = stdout (server st) ++ [INFO_nobody_connected timeout_limit]
          /\ listening (run_epilogue st') = false)
  /\ (forall (st : Acceptor) (ev : run_event) (conn : socket) (a : addr),
        accepted ev = Ret (conn, a) ->
        start_time (snd (run_turn st ev)) = fst (time_time (wall st))
        /\ active_clients (server (snd (run_turn st ev)))
           = active_clients (server st) ++ [fileno conn])
  /\ (forall (s : CameraServer) (clk : clock) (ev : run_event)
             (script : list run_event),
        recv_data_running s = true ->
        accepted ev = Raise socket_timeout ->
        active_clients s = [] ->
        (inject_Z timeout_limit
         < fst (time_time (snd (time_time clk))) - fst (time_time clk))%Q ->
        exists st',
          run s clk (ev :: script) = Some (None, st')
          /\ recv_data_running (server st') = false
          /\ listening st' = false).
Proof.
  split; [reflexivity|]. split; [|split].
  - intros st ev script Hrun Hacc Hnone Hlate.
    rewrite (run_loop_idle st ev script Hrun Hacc Hnone Hlate).
    eexists. split; [reflexivity|]. repeat split.
  - intros st ev conn a Hacc. unfold run_turn. rewrite Hacc.
    unfold time_time. cbn [fst].
    match goal with
    | |- context [run_display ?st' ?k] =>
        destruct (run_display_keeps st' k) as [Hs _];
        pose proof (run_display_clients st' k) as Hc
    end.
    split; [exact Hs | exact Hc].
  - intros s clk ev script Hrun Hacc Hnone Hlate. unfold run.
    destruct (time_time clk) as [now clk1] eqn:Hnow. cbn [fst snd] in Hlate.
    rewrite run_loop_idle; try assumption.
    eexists. split; [reflexivity|]. split; reflexivity.
Qed.

Lemma idle_timeout_stops_acceptor_witness :
  exists st',
    run_loop [quiet_turn] demo_acceptor = Some (None, st')
    /\ recv_data_running (server st') = false
    /\ listening (run_epilogue st') = false.
Proof.
  destruct idle_timeout_stops_acceptor as (_ & H & _).
  destruct (H demo_acceptor quiet_turn [])
    as (st' & Hloop & Hflag & _ & Hlisten);
    [reflexivity | reflexivity | reflexivity | reflexivity |].
  exists st'. repeat split; assumption.
Defined.

(** A whole run in which nobody ever connects: the clock reads 0 when [run]
    starts and one second more at each poll. After 60 polls the script is
    used up and the loop would still run; the 61st poll stops the server and
    the listening socket is closed. *)
Example nobody_connects_60_polls :
  run (CameraServer_init 60) (demo_clock 0) (repeat quiet_turn 60) = None.
Proof. vm_compute. reflexivity. Qed.

Example nobody_connects_61_polls :
  exists st,
    run (CameraServer_init 60) (demo_clock 0) (repeat quiet_turn 61)
    = Some (None, st)
    /\ recv_data_running (server st) = false
    /\ listening st = false
    /\ stdout (server st)
       = [INFO_server_starting; INFO_nobody_connected 60; INFO_server_stopped].
Proof.
  eexists. split; [vm_compute; reflexivity|]. repeat split.
Qed.

(** A socket is listed once: accepting a connection whose descriptor is not
    yet listed keeps the list of live sockets free of repetitions. *)
Lemma run_turn_accept_NoDup (st : Acceptor) (ev : run_event) (conn : socket)
    (a : addr) :
  accepted ev = Ret (conn, a) ->
  NoDup (active_clients (server st)) ->
  fileno conn ∉ active_clients (server st) ->
  NoDup (active_clients (server (snd (run_turn st ev)))).
Proof.
  intros Hacc Hnd Hfresh. unfold run_turn. rewrite Hacc.
  unfold time_time.
  match goal with
  | |- context [run_display ?st' ?k] => rewrite (run_display_clients st' k)
  end.
  cbn [server active_clients with_active_clients print].
  apply NoDup_app. split; [exact Hnd|]. split.
  - intros x Hx Hx'. apply list_elem_of_singleton in Hx'. congruence.
  - apply NoDup_singleton.
Qed.

(** ** The peer *)

Lemma capture_requested_absent (cams : list Camera) (n : Z)
    (capture : Z -> option bytes) :
  Forall (fun cam => camera_num cam <> n) cams ->
  capture_requested cams n capture = Ret (None, cams).
Proof.
  induction 1 as [|cam cams Hcam _ IH]; [reflexivity|].
  cbn [capture_requested].
  replace (camera_num cam =? n) with false by (symmetry; apply Z.eqb_neq; exact Hcam).
  rewrite IH. reflexivity.
Qed.

(** A frame handed to the send loop is a camera frame: tag, length on four
    bytes, and the non-empty payload the requested camera delivered. *)
Lemma capture_requested_frame (cams : list Camera) (n : Z)
    (capture : Z -> option bytes) :
  forall frame cams',
    capture_requested cams n capture = Ret (Some frame, cams') ->
    exists payload,
      capture n = Some payload
      /\ payload <> []
      /\ Struct.pack_L (Z.of_nat (length payload))
         = Ret (Struct.be_bytes 4 (Z.of_nat (length payload)))
      /\ frame = "c"%byte :: Struct.be_bytes 4 (Z.of_nat (length payload))
                   ++ payload.
Proof.
  induction cams as [|cam cams IH]; intros frame cams'; [discriminate|].
  cbn [capture_requested].
  destruct (camera_num cam =? n) eqn:E.
  - apply Z.eqb_eq in E. rewrite E. unfold capture_and_encode.
    destruct (capture n) as [[|b bs]|] eqn:Hcap; try discriminate.
    destruct (Struct.pack_L (Z.of_nat (length (b :: bs)))) as [len|e] eqn:Hp;
      [|discriminate].
    intros [= <- _]. exists (b :: bs).
    assert (len = Struct.be_bytes 4 (Z.of_nat (length (b :: bs)))) as ->.
    { revert Hp. unfold Struct.pack_L.
      destruct ((0 <=? _) && (_ <? 2 ^ 32)); congruence. }
    repeat split; [discriminate | exact Hp].
  - destruct (capture_requested cams n capture) as [[target cams'']|e] eqn:Hrec;
      [|discriminate].
    intros [= -> _]. eapply IH. reflexivity.
Qed.

Lemma sendall_ok (k : socket) (data : bytes) (n : nat) :
  sends_succeed (S n) k ->
  exists k',
    sendall k data = (Ret tt, k')
    /\ outbound k' = outbound k ++ data
    /\ sends_succeed n k'.
Proof.
  unfold sends_succeed, sendall. intros H.
  destruct (send_faults k) as [|[e|] fs] eqn:E.
  - eexists. split; [reflexivity|]. split; [reflexivity|].
    cbn [send_faults]. rewrite take_nil. constructor.
  - cbn [take] in H. apply Forall_cons in H as [H _]. discriminate H.
  - cbn [take] in H. apply Forall_cons in H as [_ H].
    eexists. split; [reflexivity|]. split; [reflexivity | exact H].
Qed.

(** A turn in which the requested camera yields nothing. *)
Lemma send_loop_turn_no_frame (pack_d : Q -> bytes) (c : CameraClient)
    (capture : Z -> option bytes) (target : option bytes)
    (cams : list Camera) :
  capture_requested (cameras c) (requested_camera_num c) capture
    = Ret (target, cams) ->
  truthy target = false ->
  send_loop_turn pack_d c capture
  = (Continue,
     client_print (with_requested_camera_num (with_cameras c cams) 1) BLANK).
Proof.
  intros Hcap Hno. unfold send_loop_turn. rewrite Hcap, Hno. reflexivity.
Qed.



(** A write that fails ends the loop: the flag is cleared and nothing more
    is written in this turn. *)
Lemma send_loop_turn_ping_fails (pack_d : Q -> bytes) (c : CameraClient)
    (capture : Z -> option bytes) (frame : bytes) (cams : list Camera)
    (e : exn) (fs : list (option exn)) :
  capture_requested (cameras c) (requested_camera_num c) capture
    = Ret (Some frame, cams) ->
  send_faults (sock c) = Some e :: fs ->
  exists c',
    send_loop_turn pack_d c capture = (Break, c')
    /\ loop_running c' = false
    /\ outbound (sock c') = outbound (sock c).
Proof.
  intros Hcap Hfault. unfold send_loop_turn. rewrite Hcap.
  destruct (capture_requested_frame _ _ _ _ _ Hcap) as (payload & _ & _ & _ & ->).
  cbn [truthy app]. unfold timestamp_send, time_time, sendall.
  cbn [client_clock with_cameras with_client_clock sock].
  rewrite Hfault. cbn [with_sock]. unfold send_loop_except.
  eexists. split; [reflexivity|]. split; reflexivity.
Qed.

Lemma probe_devices_numbers (devices : list nat) (opened : nat -> bool)
    (quality : Z) :
  forall next_num,
    Forall (fun cam => next_num <= camera_num cam
                       < next_num + Z.of_nat (length devices))
           (probe_devices devices opened quality next_num).
Proof.
  induction devices as [|i devices IH]; intros next_num; [constructor|].
  cbn [probe_devices length]. destruct (opened i).
  - constructor; [cbn [camera_num]; lia|].
    eapply Forall_impl; [apply IH|]. cbn beta. intros cam Hcam. lia.
  - eapply Forall_impl; [apply IH|]. cbn beta. intros cam Hcam. lia.
Qed.

Lemma initialize_cameras_numbers (opened : nat -> bool) (quality : Z)
    (cams : list Camera) :
  initialize_cameras opened quality = Ret cams ->
  cams <> [] /\ Forall (fun cam => 1 <= camera_num cam <= 10) cams.
Proof.
  unfold initialize_cameras.
  pose proof (probe_devices_numbers (seq 0 10) opened quality 1) as H.
  destruct (probe_devices (seq 0 10) opened quality 1) as [|cam l];
    [discriminate|].
  intros [= <-]. split; [discriminate|].
  eapply Forall_impl; [exact H|]. cbn beta. rewrite length_seq. intros c Hc. lia.
Qed.

Lemma receive_loop_turn_byte (c : CameraClient) (b : byte) (rest : bytes) :
  arriving (inbound (sock c)) = b :: rest ->
  exists k,
    receive_loop_turn c
    = (Continue, with_requested_camera_num (with_sock c k) (Struct.byte_val b))
    /\ arriving (inbound k) = rest.
Proof.
  intros Hstream. unfold receive_loop_turn, recv.
  destruct (inbound (sock c)) as [|[[|b' bs]|e] evs] eqn:Hin;
    try discriminate Hstream.
  cbn [arriving app] in Hstream. injection Hstream as -> Hrest.
  change (Z.to_nat 1) with 1%nat. cbn [drop take].
  destruct bs as [|b2 bs]; cbn [drop take Struct.unpack_B].
  - eexists. split; [reflexivity|]. exact Hrest.
  - eexists. split; [reflexivity|]. exact Hrest.
Qed.

(** C10. The peer's receive loop takes whatever byte arrives, any value
    from 0 to 255, as the requested camera number; there is no range test on
    this side. The number is put right only by the send loop, and only when
    no camera carries it: that turn sets the request back to 1 and writes
    nothing. The cameras are numbered from 1 up to at most 10, so a request
    of 0 or of 200 is always put back this way. *)
Theorem requested_index_is_not_validated (pack_d : Q -> bytes) :
  (forall (c : CameraClient) (b : byte) (rest : bytes),
     arriving (inbound (sock c)) = b :: rest ->
     exists c',
       receive_loop_turn c = (Continue, c')
       /\ requested_camera_num c' = Struct.byte_val b
       /\ loop_running c' = loop_running c
       /\ cameras c' = cameras c)
  /\ (forall v, 0 <= v <= 255 ->
        Struct.byte_val (Struct.byte_of_Z v) = v)
  /\ (forall (c : CameraClient) (capture : Z -> option bytes),
        Forall (fun cam => camera_num cam <> requested_camera_num c) (cameras c) ->
        exists c',
          send_loop_turn pack_d c capture = (Continue, c')
          /\ requested_camera_num c' = 1
          /\ sock c' = sock c)
  /\ (forall (opened : nat -> bool) (quality : Z) (cams : list Camera) (v : Z),
        initialize_cameras opened quality = Ret cams ->
        v < 1 \/ 10 < v ->
        Forall (fun cam => camera_num cam <> v) cams).
Proof.
  split; [|split; [|split]].
  - intros c b rest Hstream.
    destruct (receive_loop_turn_byte c b rest Hstream) as (k & Hturn & _).
    eexists. split; [exact Hturn|]. repeat split.
  - intros v Hv. rewrite byte_val_of_Z. apply Z.mod_small. lia.
  - intros c capture Hnone.
    pose proof (capture_requested_absent _ _ capture Hnone) as Hcap.
    rewrite (send_loop_turn_no_frame pack_d c capture None (cameras c) Hcap)
      by reflexivity.
    eexists. split; [reflexivity|]. split; reflexivity.
  - intros opened quality cams v Hinit Hv.
    apply initialize_cameras_numbers in Hinit as [_ Hnum].
    eapply Forall_impl; [exact Hnum|]. cbn beta. intros cam Hcam. lia.
Qed.

Lemma requested_index_is_not_validated_witness :
  (exists c',
     receive_loop_turn
       (mkClient (demo_socket [Packet [xc8]]) true 1 [demo_camera]
                 (demo_clock 0) [])
     = (Continue, c')
     /\ requested_camera_num c' = 200)
  /\ (exists c',
        send_loop_turn demo_pack_d
          (mkClient (demo_socket []) true 200 [demo_camera] (demo_clock 0) [])
          demo_capture
        = (Continue, c')
        /\ requested_camera_num c' = 1
        /\ outbound (sock c') = []).
Proof.
  destruct (requested_index_is_not_validated demo_pack_d)
    as (Hrecv & _ & Hsend & Hinit).
  split.
  - destruct (Hrecv (mkClient (demo_socket [Packet [xc8]]) true 1 [demo_camera]
                              (demo_clock 0) []) xc8 [])
      as (c' & Hturn & Hnum & _); [reflexivity|].
    exists c'. split; [exact Hturn | exact Hnum].
  - destruct (Hsend (mkClient (demo_socket []) true 200 [demo_camera]
                              (demo_clock 0) []) demo_capture)
      as (c' & Hturn & Hnum & Hsock).
    + apply (Hinit (fun i => Nat.eqb i 0) 40 [demo_camera] 200);
        [reflexivity | lia].
    + exists c'. rewrite Hsock. repeat split; assumption.
Defined.

(** * Further properties of the server *)

(** ** What a turn of the inbound loop can change *)

(** A property of the server that printing, storing a frame for [a] and
    recording a latency for [a] all keep is kept by a turn of [a]'s inbound
    loop. *)
Lemma recv_data_turn_keeps (unpack_d : bytes -> Q) (a : addr)
    (Inv : CameraServer -> Prop) :
  (forall s out, Inv s -> Inv (prints s out)) ->
  (forall s l, Inv s -> Inv (print s l)) ->
  (forall s P, Inv s -> Inv (put_frame s a P)) ->
  (forall s x, Inv s -> Inv (put_latency s a x)) ->
  forall s sock clk fl s' sock' clk',
    Inv s ->
    recv_data_turn unpack_d s sock a clk = Some (fl, s', sock', clk') ->
    Inv s'.
Proof.
  intros Hprints Hprint Hframe Hlat s sock clk fl s' sock' clk' Hs.
  unfold recv_data_turn.
  destruct (recv_all sock Struct.calcsize_c) as [[[r1 k1] o1]|];
    [|discriminate]. cbn [mbind option_bind].
  destruct r1 as [[tag|]|e1]; try (intros [= <- <- <- <-]; auto; fail).
  destruct (Struct.unpack_c tag) as [t|e]; [|intros [= <- <- <- <-]; auto].
  destruct (Byte.eqb t "c"); [|destruct (Byte.eqb t "t")].
  - destruct (recv_all k1 Struct.calcsize_L) as [[[r2 k2] o2]|];
      [|discriminate]. cbn [mbind option_bind].
    destruct r2 as [[len|]|e2]; try (intros [= <- <- <- <-]; auto; fail).
    destruct (Struct.unpack_L len) as [n|e]; [|intros [= <- <- <- <-]; auto].
    destruct (recv_all k2 n) as [[[r3 k3] o3]|]; [|discriminate].
    cbn [mbind option_bind].
    destruct r3 as [[P|]|e3]; intros [= <- <- <- <-]; auto.
  - destruct (recv_all k1 Struct.calcsize_d) as [[[r2 k2] o2]|];
      [|discriminate]. cbn [mbind option_bind].
    destruct r2 as [[ts|]|e2]; unfold time_time; intros [= <- <- <- <-]; auto.
  - intros [= <- <- <- <-]. auto.
Qed.

Lemma recv_data_loop_keeps (unpack_d : bytes -> Q) (a : addr)
    (Inv : CameraServer -> Prop) :
  (forall s out, Inv s -> Inv (prints s out)) ->
  (forall s l, Inv s -> Inv (print s l)) ->
  (forall s P, Inv s -> Inv (put_frame s a P)) ->
  (forall s x, Inv s -> Inv (put_latency s a x)) ->
  forall fuel s sock clk raised s' sock' clk',
    Inv s ->
    recv_data_loop unpack_d fuel s sock a clk = Some (raised, s', sock', clk') ->
    Inv s'.
Proof.
  intros Hprints Hprint Hframe Hlat.
  induction fuel as [|fuel IH]; intros s sock clk raised s' sock' clk' Hs;
    cbn [recv_data_loop]; destruct (recv_data_running s);
    try discriminate; try (intros [= <- <- <- <-]; exact Hs).
  destruct (recv_data_turn unpack_d s sock a clk) as [[[[fl s1] k1] c1]|] eqn:Ht;
    [|discriminate]. cbn [mbind option_bind].
  pose proof (recv_data_turn_keeps unpack_d a Inv Hprints Hprint Hframe Hlat
                _ _ _ _ _ _ _ Hs Ht) as Hs1.
  destruct fl; [apply IH; exact Hs1 | |]; intros [= <- <- <- <-]; exact Hs1.
Qed.

(** A turn that does not go on, whether it leaves the loop by [break] or
    by an exception, has stored nothing and has not read the clock. *)
Lemma recv_data_turn_stop (unpack_d : bytes -> Q) (s : CameraServer)
    (sock : socket) (a : addr) (clk : clock) (fl : flow) (s' : CameraServer)
    (sock' : socket) (clk' : clock) :
  recv_data_turn unpack_d s sock a clk = Some (fl, s', sock', clk') ->
  fl <> Continue ->
  client_camera_data s' = client_camera_data s
  /\ client_latency_time s' = client_latency_time s
  /\ latency_history s' = latency_history s
  /\ clk' = clk.
Proof.
  unfold recv_data_turn.
  destruct (recv_all sock Struct.calcsize_c) as [[[r1 k1] o1]|];
    [|discriminate]. cbn [mbind option_bind].
  destruct r1 as [[tag|]|e1]; try (intros [= <- <- <- <-]; auto; fail).
  destruct (Struct.unpack_c tag) as [t|e]; [|intros [= <- <- <- <-]; auto].
  destruct (Byte.eqb t "c"); [|destruct (Byte.eqb t "t")].
  - destruct (recv_all k1 Struct.calcsize_L) as [[[r2 k2] o2]|];
      [|discriminate]. cbn [mbind option_bind].
    destruct r2 as [[len|]|e2]; try (intros [= <- <- <- <-]; auto; fail).
    destruct (Struct.unpack_L len) as [n|e]; [|intros [= <- <- <- <-]; auto].
    destruct (recv_all k2 n) as [[[r3 k3] o3]|]; [|discriminate].
    cbn [mbind option_bind].
    destruct r3 as [[P|]|e3]; intros [= <- <- <- <-]; auto.
    intros Hne. contradiction.
  - destruct (recv_all k1 Struct.calcsize_d) as [[[r2 k2] o2]|];
      [|discriminate]. cbn [mbind option_bind].
    destruct r2 as [[ts|]|e2]; unfold time_time; intros [= <- <- <- <-]; auto.
    intros Hne. contradiction.
  - intros [= <- <- <- <-] Hne. contradiction.
Qed.

(** When fewer bytes are to arrive than are asked for, the exact read
    gives up, with [None] or with an exception. *)
Lemma recv_all_short (sock : socket) (size : Z) :
  (length (arriving (inbound sock)) < Z.to_nat size)%nat ->
  exists r sock' out,
    recv_all sock size = Some (r, sock', out)
    /\ (r = Ret None \/ exists e, r = Raise e).
Proof.
  intros Hshort.
  destruct (recv_all_total sock size) as ([[data|]|e] & k & out & Heq & _ & Hr).
  - destruct Hr as (evs & _ & Hstream & Hlen & _).
    rewrite Hstream, length_app in Hshort. lia.
  - eauto 6.
  - eauto 7.
Qed.

Lemma camera_frame_length (P : bytes) :
  length (camera_frame P) = (5 + length P)%nat.
Proof.
  unfold camera_frame, Struct.pack_c. rewrite !length_app, be_bytes_length.
  reflexivity.
Qed.

(** When nothing more arrives, the turn does not go on: it leaves the loop
    by [break], or by the exception of a handler. *)
Lemma recv_data_turn_end (unpack_d : bytes -> Q) (s : CameraServer)
    (sock : socket) (a : addr) (clk : clock) :
  arriving (inbound sock) = [] ->
  exists fl s' sock',
    recv_data_turn unpack_d s sock a clk = Some (fl, s', sock', clk)
    /\ (fl = Break \/ exists e, fl = Throw e).
Proof.
  intros Hend. unfold recv_data_turn.
  destruct (recv_all_short sock Struct.calcsize_c)
    as (r & k & out & H1 & [-> | [e ->]]).
  { rewrite Hend. change (Z.to_nat Struct.calcsize_c) with 1%nat.
    cbn [length]. lia. }
  - rewrite H1. cbn [mbind option_bind]. eauto 6.
  - rewrite H1. cbn [mbind option_bind]. eauto 7.
Qed.

(** X1. A timing ping, tag [t] and eight bytes, in whatever segments it
    arrives: the turn computes the latency as the server's clock reading
    minus the decoded time stamp, times 1000, appends it to the shared
    history, stores it as the peer's latest latency, leaves the frames
    alone and stands right behind the ping. *)
Theorem timing_ping_records_latency (unpack_d : bytes -> Q) (s : CameraServer)
    (sock : socket) (a : addr) (clk : clock) (ts rest : bytes) :
  length ts = 8%nat ->
  arriving (inbound sock) = "t"%byte :: ts ++ rest ->
  exists s' sock',
    let latency_ms := ((fst (time_time clk) - unpack_d ts) * 1000)%Q in
    recv_data_turn unpack_d s sock a clk
    = Some (Continue, s', sock', snd (time_time clk))
    /\ latency_history s' = deque_append (latency_history s) latency_ms
    /\ client_latency_time s' !! a = Some latency_ms
    /\ client_camera_data s' = client_camera_data s
    /\ arriving (inbound sock') = rest.
Proof.
  intros Hl Hstream.
  destruct (recv_data_turn_timing unpack_d s sock a clk ts rest Hl Hstream)
    as (evs & Hturn & Harr).
  eexists _, _. cbv zeta. split; [exact Hturn|].
  split; [reflexivity|]. split; [apply lookup_insert_eq|].
  split; [reflexivity | exact Harr].
Qed.

Lemma timing_ping_records_latency_witness :
  exists s' sock',
    recv_data_turn demo_unpack_d (CameraServer_init 60)
      (demo_socket [Packet ["t"; x00; x00; x00]%byte;
                    Packet [x00; x00; x00; x00; x02; "c"]%byte])
      demo_peer (demo_clock 5)
    = Some (Continue, s', sock', snd (time_time (demo_clock 5)))
    /\ latency_history s' = [((5 + 0 - 2) * 1000)%Q]
    /\ arriving (inbound sock') = ["c"%byte].
Proof.
  destruct (timing_ping_records_latency demo_unpack_d (CameraServer_init 60)
              (demo_socket [Packet ["t"; x00; x00; x00]%byte;
                            Packet [x00; x00; x00; x00; x02; "c"]%byte])
              demo_peer (demo_clock 5)
              [x00; x00; x00; x00; x00; x00; x00; x02] ["c"%byte])
    as (s' & sock' & Hturn & Hhist & _ & _ & Harr);
    [reflexivity | reflexivity |].
  exists s', sock'. split; [exact Hturn|]. split; [exact Hhist | exact Harr].
Defined.

(** X2. A camera frame that is cut short, the stream closing, timing out or
    failing anywhere before its last byte: the turn does not go on. It
    leaves the loop by [break], or by the exception that a handler of
    [recv_all] raised, and neither the frames, nor the latencies, nor the
    history have changed; no partial payload is ever stored. *)
Theorem truncated_frame_stores_nothing (unpack_d : bytes -> Q)
    (s : CameraServer) (sock : socket) (a : addr) (clk : clock) (P : bytes)
    (n : nat) :
  Z.of_nat (length P) < 2 ^ 32 ->
  (n < length (camera_frame P))%nat ->
  arriving (inbound sock) = take n (camera_frame P) ->
  exists fl s' sock',
    recv_data_turn unpack_d s sock a clk = Some (fl, s', sock', clk)
    /\ (fl = Break \/ exists e, fl = Throw e)
    /\ client_camera_data s' = client_camera_data s
    /\ client_latency_time s' = client_latency_time s
    /\ latency_history s' = latency_history s.
Proof.
  intros HP Hn Hstream. rewrite camera_frame_length in Hn.
  assert (exists fl s' sock',
            recv_data_turn unpack_d s sock a clk = Some (fl, s', sock', clk)
            /\ (fl = Break \/ exists e, fl = Throw e))
    as (fl & s' & sock' & Hturn & Hfl).
  { destruct n as [|m].
    - apply recv_data_turn_end. exact Hstream.
    - set (len := Struct.be_bytes 4 (Z.of_nat (length P))) in *.
      assert (length len = 4%nat) as Hlen by apply be_bytes_length.
      change (take (S m) (camera_frame P)) with ("c"%byte :: take m (len ++ P))
        in Hstream.
      unfold recv_data_turn.
      destruct (recv_all_prefix sock Struct.calcsize_c ["c"%byte]
                  (take m (len ++ P))) as (evs1 & H1 & A1);
        [reflexivity | exact Hstream |].
      rewrite H1. cbn [mbind option_bind]. rewrite prints_nil.
      cbn [Struct.unpack_c]. rewrite byte_eqb_refl.
      destruct (Nat.lt_ge_cases m 4) as [Hm|Hm].
      + destruct (recv_all_short (set_inbound sock evs1) Struct.calcsize_L)
          as (r & k2 & out & H2 & Hr).
        { cbn [inbound set_inbound]. rewrite A1, length_take.
          change (Z.to_nat Struct.calcsize_L) with 4%nat. lia. }
        rewrite H2. cbn [mbind option_bind].
        destruct Hr as [-> | [e ->]]; [eauto 6 | eauto 7].
      + assert (take m (len ++ P) = len ++ take (m - 4) P) as Hsplit.
        { rewrite take_app, <- Hlen. rewrite take_ge by lia. reflexivity. }
        rewrite Hsplit in A1.
        destruct (recv_all_prefix (set_inbound sock evs1) Struct.calcsize_L
                    len (take (m - 4) P)) as (evs2 & H2 & A2);
          [rewrite Hlen; reflexivity | exact A1 |].
        rewrite H2. cbn [mbind option_bind]. rewrite prints_nil.
        subst len. rewrite unpack_L_be_bytes by lia.
        destruct (recv_all_short (set_inbound (set_inbound sock evs1) evs2)
                    (Z.of_nat (length P))) as (r & k3 & out & H3 & Hr).
        { cbn [inbound set_inbound]. rewrite A2, length_take. lia. }
        rewrite H3. cbn [mbind option_bind].
        destruct Hr as [-> | [e ->]]; [eauto 6 | eauto 7]. }
  exists fl, s', sock'. split; [exact Hturn|]. split; [exact Hfl|].
  destruct (recv_data_turn_stop _ _ _ _ _ _ _ _ _ Hturn) as (H1 & H2 & H3 & _).
  { destruct Hfl as [-> | [e ->]]; discriminate. }
  auto.
Qed.

Lemma truncated_frame_stores_nothing_witness :
  exists fl s' sock',
    recv_data_turn demo_unpack_d (CameraServer_init 60)
      (demo_socket [Packet ["c"; x00; x00]%byte]) demo_peer (demo_clock 0)
    = Some (fl, s', sock', demo_clock 0)
    /\ (fl = Break \/ exists e, fl = Throw e)
    /\ client_camera_data s' = client_camera_data (CameraServer_init 60).
Proof.
  destruct (truncated_frame_stores_nothing demo_unpack_d (CameraServer_init 60)
              (demo_socket [Packet ["c"; x00; x00]%byte]) demo_peer
              (demo_clock 0) ["J"; "F"]%byte 3)
    as (fl & s' & sock' & Hturn & Hfl & Hcam & _);
    [simpl; lia | simpl; lia | reflexivity |].
  exists fl, s', sock'. split; [exact Hturn|]. split; [exact Hfl | exact Hcam].
Defined.

(** X3. A stream made of camera frames, one after the other and cut into
    segments in any way, after which nothing more arrives: the inbound loop
    reads them all and then ends, by [break] or by the exception that a
    handler of [recv_all] raised; the frame kept for the peer is the payload
    of the last one (the earlier ones are overwritten), and the latency
    history is untouched. With no frame at all the peer's entry is what it
    was. *)
Theorem latest_frame_wins (unpack_d : bytes -> Q) (a : addr)
    (Ps : list bytes) :
  forall (fuel : nat) (s : CameraServer) (sock : socket) (clk : clock),
    Forall (fun P => Z.of_nat (length P) < 2 ^ 32) Ps ->
    arriving (inbound sock) = concat (map camera_frame Ps) ->
    recv_data_running s = true ->
    (length (arriving (inbound sock)) < fuel)%nat ->
    exists raised s' sock',
      recv_data_loop unpack_d fuel s sock a clk
      = Some (raised, s', sock', clk)
      /\ client_camera_data s' !! a
         = match last Ps with
           | Some P => Some P
           | None => client_camera_data s !! a
           end
      /\ latency_history s' = latency_history s.
Proof.
  induction Ps as [|P Ps IH]; intros fuel s sock clk HPs Hstream Hrun Hfuel.
  - destruct fuel as [|fuel]; [lia|]. cbn [recv_data_loop]. rewrite Hrun.
    destruct (recv_data_turn_end unpack_d s sock a clk Hstream)
      as (fl & s' & sock' & Hturn & Hfl).
    destruct (recv_data_turn_stop _ _ _ _ _ _ _ _ _ Hturn)
      as (Hc & _ & Hh & _).
    { destruct Hfl as [-> | [e ->]]; discriminate. }
    rewrite Hturn. cbn [mbind option_bind last].
    destruct Hfl as [-> | [e ->]]; eexists _, _, _;
      (split; [reflexivity|]); rewrite Hc, Hh; split; reflexivity.
  - apply Forall_cons in HPs as [HP HPs].
    cbn [map concat] in Hstream. unfold camera_frame in Hstream at 1.
    cbn [Struct.pack_c app] in Hstream. rewrite <- app_assoc in Hstream.
    destruct fuel as [|fuel]; [lia|]. cbn [recv_data_loop]. rewrite Hrun.
    destruct (recv_data_turn_camera unpack_d s sock a clk
                (Struct.be_bytes 4 (Z.of_nat (length P))) P
                (concat (map camera_frame Ps)))
      as (evs & Hturn & Harr);
      [apply be_bytes_length | apply unpack_L_be_bytes; lia | exact Hstream |].
    rewrite Hturn. cbn [mbind option_bind].
    destruct (IH fuel (put_frame s a P) (set_inbound sock evs) clk HPs Harr Hrun)
      as (raised & s' & sock' & Hloop & Hcam & Hhist).
    { cbn [inbound set_inbound]. rewrite Harr. rewrite Hstream in Hfuel.
      cbn [length] in Hfuel. rewrite !length_app in Hfuel. lia. }
    exists raised, s', sock'. split; [exact Hloop|]. split; [|exact Hhist].
    rewrite Hcam. destruct Ps as [|P' Ps'].
    + cbn [last]. unfold put_frame.
      cbn [client_camera_data with_client_camera_data].
      apply lookup_insert_eq.
    + rewrite last_cons_cons.
      destruct (last (P' :: Ps')) eqn:E; [reflexivity|].
      apply last_None in E. discriminate E.
Qed.

Lemma latest_frame_wins_witness :
  exists raised s' sock',
    recv_data_loop demo_unpack_d 20 (CameraServer_init 60)
      (demo_socket [Packet ["c"; x00; x00; x00; x01; "A"; "c"; x00]%byte;
                    Packet [x00; x00; x02; "B"; "C"]%byte])
      demo_peer (demo_clock 0)
    = Some (raised, s', sock', demo_clock 0)
    /\ client_camera_data s' !! demo_peer = Some ["B"; "C"]%byte.
Proof.
  destruct (latest_frame_wins demo_unpack_d demo_peer [["A"]; ["B"; "C"]]%byte
              20 (CameraServer_init 60)
              (demo_socket [Packet ["c"; x00; x00; x00; x01; "A"; "c"; x00]%byte;
                            Packet [x00; x00; x02; "B"; "C"]%byte])
              (demo_clock 0))
    as (raised & s' & sock' & Hloop & Hcam & _).
  - repeat constructor.
  - reflexivity.
  - reflexivity.
  - simpl. lia.
  - exists raised, s', sock'. split; [exact Hloop | exact Hcam].
Defined.

(** ** Invariants of the shared state *)

Lemma recv_data_keeps (unpack_d : bytes -> Q) (a : addr)
    (Inv : CameraServer -> Prop) :
  (forall s out, Inv s -> Inv (prints s out)) ->
  (forall s l, Inv s -> Inv (print s l)) ->
  (forall s P, Inv s -> Inv (put_frame s a P)) ->
  (forall s x, Inv s -> Inv (put_latency s a x)) ->
  (forall s k, Inv s -> Inv (registry_cleanup s k a)) ->
  forall fuel s sock clk s' sock' clk',
    Inv s ->
    recv_data unpack_d fuel s sock a clk = Some (s', sock', clk') ->
    Inv s'.
Proof.
  intros Hprints Hprint Hframe Hlat Hclean fuel s sock clk s' sock' clk' Hs.
  unfold recv_data.
  destruct (recv_data_loop unpack_d fuel (print s (INFO_recv_thread_start a))
              sock a clk) as [[[[raised s1] k1] c1]|] eqn:Hloop; [|discriminate].
  cbn [mbind option_bind]. rewrite recv_data_finally_eq.
  pose proof (recv_data_loop_keeps unpack_d a Inv Hprints Hprint Hframe Hlat
                _ _ _ _ _ _ _ _ (Hprint _ _ Hs) Hloop) as Hs1.
  intros [= <- <- <-]. apply Hprint, Hclean.
  destruct raised; auto.
Qed.

Lemma set_camera_request_selection (s : CameraServer) (v : Z) :
  selection_ok s ->
  exists s',
    set_camera_request s v = Ret s'
    /\ selection_ok s'
    /\ latency_history s' = latency_history s
    /\ active_clients s' = active_clients s
    /\ recv_data_running s' = recv_data_running s.
Proof.
  intros Hs. unfold set_camera_request, Struct.pack_B.
  destruct ((1 <=? v) && (v <=? 9)) eqn:E.
  - apply andb_true_iff in E as [E1 E2].
    replace ((0 <=? v) && (v <=? 255)) with true
      by (symmetry; apply andb_true_iff; lia).
    eexists. split; [reflexivity|]. split; [|auto].
    exists v. split; [lia | reflexivity].
  - eexists. split; [reflexivity|]. split; [exact Hs | auto].
Qed.

Lemma keyboard_processing_selection (d : Display) (s : CameraServer) (k : Z) :
  selection_ok s ->
  exists d' s',
    keyboard_processing d s k = Ret (d', s')
    /\ selection_ok s'
    /\ latency_history s' = latency_history s
    /\ active_clients s' = active_clients s.
Proof.
  intros Hs. unfold keyboard_processing.
  destruct (k =? ord_q); [eexists _, _; split; [reflexivity | auto]|].
  destruct ((ord_1 <=? k) && (k <=? ord_9)).
  - destruct (set_camera_request_selection s (k - ord_0) Hs)
      as (s1 & Heq & Hs1 & Hh & Ha & _).
    rewrite Heq. eexists _, _. split; [reflexivity|]. auto.
  - destruct ((k =? ord_r) || (k =? ord_R));
      eexists _, _; (split; [reflexivity | auto]).
Qed.

Lemma run_turn_server (st : Acceptor) (ev : run_event) :
  selection_ok (server st) ->
  selection_ok (server (snd (run_turn st ev)))
  /\ latency_history (server (snd (run_turn st ev)))
     = latency_history (server st).
Proof.
  intros Hs.
  assert (forall st' k,
            selection_ok (server st') ->
            selection_ok (server (snd (run_display st' k)))
            /\ latency_history (server (snd (run_display st' k)))
               = latency_history (server st')) as Hdisp.
  { intros st' k Hs'. unfold run_display.
    destruct (keyboard_processing_selection (main_display st') (server st') k Hs')
      as (d' & s' & Heq & Hsel & Hh & _).
    rewrite Heq. destruct (negb (recv_data_running s')); auto. }
  unfold run_turn. destruct (accepted ev) as [[conn a]|e].
  - unfold time_time.
    match goal with
    | |- context [run_display ?st' ?k] => destruct (Hdisp st' k) as [H1 H2]; auto
    end.
  - destruct e; try (cbn [snd server]; auto).
    destruct (active_clients (server st)); [|apply Hdisp; exact Hs].
    unfold time_time.
    destruct (negb (Qle_bool _ _)); [cbn [snd server]; auto|].
    match goal with
    | |- context [run_display ?st' ?k] => destruct (Hdisp st' k) as [H1 H2]; auto
    end.
Qed.

(** X4. The stored camera request is always one byte with a value from 1
    to 9: it is so after [__init__], and [set_camera_request] with any
    integer, the keyboard handler with any key, a whole inbound session on
    any stream and a turn of the accept loop all keep it so; none of them
    raises on the way. Hence what a turn of [send_data] writes to a peer is
    exactly one byte from 1 to 9. *)
Theorem selection_always_valid :
  (forall t, selection_ok (CameraServer_init t))
  /\ (forall s v,
        selection_ok s ->
        exists s', set_camera_request s v = Ret s' /\ selection_ok s')
  /\ (forall d s k,
        selection_ok s ->
        exists d' s',
          keyboard_processing d s k = Ret (d', s') /\ selection_ok s')
  /\ (forall unpack_d fuel s sock a clk s' sock' clk',
        selection_ok s ->
        recv_data unpack_d fuel s sock a clk = Some (s', sock', clk') ->
        selection_ok s')
  /\ (forall st ev,
        selection_ok (server st) ->
        selection_ok (server (snd (run_turn st ev))))
  /\ (forall s sock a,
        selection_ok s ->
        sends_succeed 1 sock ->
        exists b sock',
          send_data_turn s sock a = (Continue, s, sock')
          /\ outbound sock' = outbound sock ++ [b]
          /\ 1 <= Struct.byte_val b <= 9).
Proof.
  split; [|split; [|split; [|split; [|split]]]].
  - intros t. exists 1. split; [lia | reflexivity].
  - intros s v Hs.
    destruct (set_camera_request_selection s v Hs) as (s' & Heq & Hs' & _).
    eauto.
  - intros d s k Hs.
    destruct (keyboard_processing_selection d s k Hs) as (d' & s' & Heq & Hs' & _).
    eauto.
  - intros unpack_d fuel s sock a clk s' sock' clk' Hs Hrun.
    assert (send_camera_request s' = send_camera_request s) as Heq.
    { apply (recv_data_keeps unpack_d a
               (fun x => send_camera_request x = send_camera_request s))
        with (7 := Hrun); try (intros; assumption); [|reflexivity].
      intros x k Hx.
      destruct (registry_cleanup_spec x k a) as (_ & _ & _ & _ & _ & Hr & _).
      cbv zeta in Hr. congruence. }
    destruct Hs as (v & Hv & Hreq). exists v. split; [exact Hv | congruence].
  - intros st ev Hs. apply run_turn_server. exact Hs.
  - intros s sock a (v & Hv & Hreq) Hsend.
    destruct (sendall_ok sock (send_camera_request s) 0 Hsend)
      as (sock' & Heq & Hout & _).
    exists (Struct.byte_of_Z v), sock'. unfold send_data_turn. rewrite Heq.
    split; [reflexivity|]. split; [rewrite Hout, Hreq; reflexivity|].
    rewrite byte_val_of_Z, Z.mod_small by lia. exact Hv.
Qed.

Lemma selection_always_valid_witness :
  exists s' b sock',
    set_camera_request (CameraServer_init 60) 7 = Ret s'
    /\ send_data_turn s' (demo_socket []) demo_peer = (Continue, s', sock')
    /\ outbound sock' = [b]
    /\ 1 <= Struct.byte_val b <= 9.
Proof.
  destruct selection_always_valid as (Hinit & Hset & _ & _ & _ & Hsend).
  destruct (Hset (CameraServer_init 60) 7 (Hinit 60%Q)) as (s' & Heq & Hs').
  destruct (Hsend s' (demo_socket []) demo_peer Hs') as (b & sock' & Ht & Ho & Hb).
  { constructor. }
  exists s', b, sock'. repeat split; try assumption; lia.
Defined.

Lemma keyboard_processing_history (d : Display) (s : CameraServer) (k : Z) :
  forall d' s',
    keyboard_processing d s k = Ret (d', s') ->
    latency_history s' = latency_history s.
Proof.
  intros d' s'. unfold keyboard_processing, set_camera_request.
  destruct (k =? ord_q); [intros [= <- <-]; reflexivity|].
  destruct ((ord_1 <=? k) && (k <=? ord_9)).
  - destruct ((1 <=? k - ord_0) && (k - ord_0 <=? 9)).
    + destruct (Struct.pack_B (k - ord_0)); [|discriminate].
      intros [= <- <-]. reflexivity.
    + intros [= <- <-]. reflexivity.
  - destruct ((k =? ord_r) || (k =? ord_R)); intros [= <- <-]; reflexivity.
Qed.

Lemma run_turn_history (st : Acceptor) (ev : run_event) :
  latency_history (server (snd (run_turn st ev)))
  = latency_history (server st).
Proof.
  assert (forall st' k,
            latency_history (server (snd (run_display st' k)))
            = latency_history (server st')) as Hdisp.
  { intros st' k. unfold run_display.
    destruct (keyboard_processing (main_display st') (server st') k)
      as [[d s]|e] eqn:E; [|reflexivity].
    apply keyboard_processing_history in E.
    destruct (negb (recv_data_running s)); exact E. }
  unfold run_turn. destruct (accepted ev) as [[conn a]|e].
  - unfold time_time. rewrite Hdisp. reflexivity.
  - destruct e; try reflexivity.
    destruct (active_clients (server st)); [|apply Hdisp].
    unfold time_time.
    destruct (negb (Qle_bool _ _)); [reflexivity|]. rewrite Hdisp. reflexivity.
Qed.

(** X5. The latency history never holds more than 100 samples: it is empty
    after [__init__], and a whole inbound session, whatever arrives on its
    stream and however many timing pings it carries, keeps the bound; the
    accept loop and the keyboard handler do not touch the history. *)
Theorem history_always_bounded :
  (forall t, history_ok (CameraServer_init t))
  /\ (forall unpack_d fuel s sock a clk s' sock' clk',
        history_ok s ->
        recv_data unpack_d fuel s sock a clk = Some (s', sock', clk') ->
        history_ok s')
  /\ (forall st ev,
        latency_history (server (snd (run_turn st ev)))
        = latency_history (server st)).
Proof.
  split; [|split].
  - intros t. unfold history_ok, maxlen. simpl. lia.
  - intros unpack_d fuel s sock a clk s' sock' clk' Hs Hrun.
    apply (recv_data_keeps unpack_d a history_ok) with (7 := Hrun);
      try (intros; assumption).
    + intros x v Hx. unfold history_ok, put_latency in *.
      cbn [latency_history with_latency_history with_client_latency_time].
      now apply deque_append_cases.
    + intros x k Hx.
      destruct (registry_cleanup_spec x k a) as (_ & _ & _ & _ & Hh & _).
      cbv zeta in Hh. unfold history_ok. rewrite Hh. exact Hx.
  - exact run_turn_history.
Qed.

Lemma history_always_bounded_witness :
  exists s' sock' clk',
    recv_data demo_unpack_d 40 (CameraServer_init 60)
      (demo_socket [Packet ["t"; x00; x00; x00; x00; x00; x00; x00; x01]%byte])
      demo_peer (demo_clock 0) = Some (s', sock', clk')
    /\ history_ok s'.
Proof.
  destruct history_always_bounded as (Hinit & Hrecv & _).
  destruct (recv_data demo_unpack_d 40 (CameraServer_init 60)
              (demo_socket
                 [Packet ["t"; x00; x00; x00; x00; x00; x00; x00; x01]%byte])
              demo_peer (demo_clock 0)) as [[[s' sock'] clk']|] eqn:Hrun.
  - exists s', sock', clk'. split; [reflexivity|].
    exact (Hrecv _ _ _ _ _ _ _ _ _ (Hinit 60%Q) Hrun).
  - vm_compute in Hrun. discriminate Hrun.
Defined.

(** ** The outbound loop of a session *)

Lemma send_data_loop_until_failure (a : addr) (k : nat) :
  forall (fuel : nat) (s : CameraServer) (sock : socket) (e : exn)
         (fs : list (option exn)),
    recv_data_running s = true ->
    send_faults sock = repeat None k ++ Some e :: fs ->
    (k < fuel)%nat ->
    exists raised s' sock',
      send_data_loop fuel s sock a = Some (raised, s', sock')
      /\ outbound sock'
         = outbound sock ++ concat (repeat (send_camera_request s) k)
      /\ closed sock' = closed sock
      /\ inbound sock' = inbound sock
      /\ (s' = s \/ exists l, s' = print s l).
Proof.
  induction k as [|k IH]; intros fuel s sock e fs Hrun Hfaults Hfuel;
    (destruct fuel as [|fuel]; [lia|]); cbn [send_data_loop]; rewrite Hrun;
    unfold send_data_turn, sendall; rewrite Hfaults; cbn [repeat app].
  - destruct e; eexists _, _, _; (split; [reflexivity|]);
      cbn [outbound closed inbound concat repeat after_failure];
      rewrite app_nil_r; repeat split; eauto.
  - destruct (IH fuel s
                (mkSocket (fileno sock) (peer sock) (inbound sock)
                          (outbound sock ++ send_camera_request s)
                          (repeat None k ++ Some e :: fs) (closed sock)
                          (connected sock))
                e fs Hrun eq_refl ltac:(lia))
      as (raised & s' & sock' & Hloop & Hout & Hclosed & Hin & Hs).
    exists raised, s', sock'. split; [exact Hloop|].
    cbn [outbound closed inbound] in Hout, Hclosed, Hin.
    cbn [repeat concat]. rewrite Hout, <- app_assoc. auto.
Qed.

(** X6. The outbound thread of a session. While the running flag is set it
    writes the stored request once per tick; when the write number [k+1] is
    the first to fail, it has written the request exactly [k] times and then
    stops. It leaves the socket open and the registry as it is: the list of
    live sockets, the frames, the latencies, the flag and the request are
    unchanged, the clean-up being the inbound thread's. With the flag
    cleared it writes nothing. *)
Theorem send_data_writes_until_failure (a : addr) (k fuel : nat)
    (s : CameraServer) (sock : socket) (e : exn) (fs : list (option exn)) :
  (recv_data_running s = true ->
   send_faults sock = repeat None k ++ Some e :: fs ->
   (k < fuel)%nat ->
   exists s' sock',
     send_data fuel s sock a = Some (s', sock')
     /\ outbound sock'
        = outbound sock ++ concat (repeat (send_camera_request s) k)
     /\ closed sock' = closed sock
     /\ active_clients s' = active_clients s
     /\ client_camera_data s' = client_camera_data s
     /\ client_latency_time s' = client_latency_time s
     /\ recv_data_running s' = recv_data_running s
     /\ send_camera_request s' = send_camera_request s)
  /\ (recv_data_running s = false ->
      send_data fuel s sock a = Some (print s (INFO_send_thread_start a), sock)).
Proof.
  split.
  - intros Hrun Hfaults Hfuel. unfold send_data.
    destruct (send_data_loop_until_failure a k fuel
                (print s (INFO_send_thread_start a)) sock e fs Hrun Hfaults Hfuel)
      as (raised & s' & sock' & Hloop & Hout & Hclosed & _ & Hs).
    rewrite Hloop. cbn [mbind option_bind].
    destruct raised; eexists _, _; (split; [reflexivity|]);
      (split; [exact Hout|]); (split; [exact Hclosed|]);
      destruct Hs as [-> | [l ->]]; repeat split.
  - intros Hrun. unfold send_data.
    destruct fuel; cbn [send_data_loop recv_data_running print]; rewrite Hrun;
      reflexivity.
Qed.

Lemma send_data_writes_until_failure_witness :
  exists s' sock',
    send_data 5 (CameraServer_init 60)
      (demo_link [] [None; None; Some BrokenPipeError]) demo_peer
    = Some (s', sock')
    /\ outbound sock' = [x01; x01]
    /\ closed sock' = false.
Proof.
  destruct (send_data_writes_until_failure demo_peer 2 5 (CameraServer_init 60)
              (demo_link [] [None; None; Some BrokenPipeError])
              BrokenPipeError []) as [H _].
  destruct H as (s' & sock' & Heq & Hout & Hclosed & _);
    [reflexivity | reflexivity | lia |].
  exists s', sock'. split; [exact Heq|]. split; [exact Hout | exact Hclosed].
Defined.

(** X7. From the operator to the peer: after [set_camera_request(v)] with
    [v] from 1 to 9, the next turn of [send_data] whose write goes through
    puts exactly one byte on the wire, and a peer whose stream starts with
    what was written sets its requested camera number to [v] in the next
    turn of its receive loop. *)
Theorem selection_reaches_peer (s s1 : CameraServer) (v : Z) (link : socket)
    (a : addr) :
  1 <= v <= 9 ->
  set_camera_request s v = Ret s1 ->
  sends_succeed 1 link ->
  exists link' written,
    send_data_turn s1 link a = (Continue, s1, link')
    /\ outbound link' = outbound link ++ written
    /\ length written = 1%nat
    /\ forall (c : CameraClient) (rest : bytes),
         arriving (inbound (sock c)) = written ++ rest ->
         exists c',
           receive_loop_turn c = (Continue, c')
           /\ requested_camera_num c' = v
           /\ loop_running c' = loop_running c.
Proof.
  intros Hv Hset Hsend.
  assert (send_camera_request s1 = [Struct.byte_of_Z v]) as Hreq.
  { revert Hset. unfold set_camera_request, Struct.pack_B.
    replace ((1 <=? v) && (v <=? 9)) with true
      by (symmetry; apply andb_true_iff; lia).
    replace ((0 <=? v) && (v <=? 255)) with true
      by (symmetry; apply andb_true_iff; lia).
    intros [= <-]. reflexivity. }
  destruct (sendall_ok link (send_camera_request s1) 0 Hsend)
    as (link' & Heq & Hout & _).
  exists link', [Struct.byte_of_Z v]. unfold send_data_turn. rewrite Heq.
  split; [reflexivity|]. split; [rewrite Hout, Hreq; reflexivity|].
  split; [reflexivity|].
  intros c rest Hstream.
  destruct (receive_loop_turn_byte c (Struct.byte_of_Z v) rest Hstream)
    as (k & Hturn & _).
  eexists. split; [exact Hturn|]. split; [|reflexivity].
  cbn [requested_camera_num with_requested_camera_num].
  rewrite byte_val_of_Z. apply Z.mod_small. lia.
Qed.

Lemma selection_reaches_peer_witness :
  exists s1 link' c',
    set_camera_request (CameraServer_init 60) 3 = Ret s1
    /\ send_data_turn s1 (demo_link [] []) demo_peer = (Continue, s1, link')
    /\ receive_loop_turn
         (mkClient (demo_socket [Packet (outbound link')]) true 1
                   [demo_camera] (demo_clock 0) [])
       = (Continue, c')
    /\ requested_camera_num c' = 3.
Proof.
  destruct (set_camera_request (CameraServer_init 60) 3) as [s1|e] eqn:Hset;
    [|discriminate Hset].
  destruct (selection_reaches_peer (CameraServer_init 60) s1 3 (demo_link [] [])
              demo_peer) as (link' & written & Hturn & Hout & Hlen & Hpeer);
    [lia | exact Hset | constructor |].
  destruct (Hpeer (mkClient (demo_socket [Packet (outbound link')]) true 1
                            [demo_camera] (demo_clock 0) []) [])
    as (c' & Hrecv & Hnum & _).
  { cbn [sock inbound demo_socket]. rewrite Hout. cbn [outbound demo_link app].
    destruct written as [|b [|? ?]]; try discriminate Hlen. reflexivity. }
  exists s1, link', c'. repeat split; assumption.
Defined.

(** X8. The end of one session leaves the others listed: after [recv_data]
    has returned, every other socket is in the list of live sockets exactly
    when it was before. *)
Theorem session_end_spares_other_sockets (unpack_d : bytes -> Q) (fuel : nat)
    (s : CameraServer) (sock : socket) (a : addr) (clk : clock) :
  (length (arriving (inbound sock)) < fuel)%nat ->
  exists s' sock' clk',
    recv_data unpack_d fuel s sock a clk = Some (s', sock', clk')
    /\ forall fd : nat,
         fd <> fileno sock ->
         (fd ∈ active_clients s' <-> fd ∈ active_clients s).
Proof.
  intros Hfuel. unfold recv_data.
  destruct (recv_data_loop_total unpack_d a fuel
              (print s (INFO_recv_thread_start a)) sock clk Hfuel)
    as (raised & s1 & k1 & clk1 & Hloop & Hsame & Hact & _).
  rewrite Hloop. cbn [mbind option_bind]. rewrite recv_data_finally_eq.
  eexists _, _, _. split; [reflexivity|].
  intros fd Hfd. cbn [active_clients print].
  match goal with
  | |- context [registry_cleanup ?x ?k ?y] =>
      destruct (registry_cleanup_spec x k y) as (Ha & _);
      assert (active_clients x = active_clients s) as Hx
        by (destruct raised; exact Hact)
  end.
  cbv zeta in Ha. rewrite Ha, Hx, Hsame. split.
  - apply list_remove_first_subset.
  - now apply list_remove_first_other.
Qed.

Lemma session_end_spares_other_sockets_witness :
  exists s' sock' clk',
    recv_data demo_unpack_d 1
      (with_active_clients (CameraServer_init 60) [3; 4; 5]%nat)
      (demo_socket []) demo_peer (demo_clock 0)
    = Some (s', sock', clk')
    /\ (4%nat ∈ active_clients s').
Proof.
  destruct (session_end_spares_other_sockets demo_unpack_d 1
              (with_active_clients (CameraServer_init 60) [3; 4; 5]%nat)
              (demo_socket []) demo_peer (demo_clock 0))
    as (s' & sock' & clk' & Heq & Hothers); [simpl; lia|].
  exists s', sock', clk'. split; [exact Heq|].
  apply Hothers; [discriminate|]. cbn [active_clients with_active_clients].
  apply list_elem_of_In. simpl. auto.
Defined.

(** ** The keyboard and the accept loop *)

(** The four kinds of keys. *)
Lemma keyboard_processing_cases (d : Display) (s : CameraServer) (k : Z) :
  (k = ord_q ->
     keyboard_processing d s k
     = Ret (d, with_recv_data_running (print s INFO_quit_requested) false))
  /\ (ord_1 <= k <= ord_9 ->
      exists s',
        keyboard_processing d s k = Ret (mkDisplay (qr_request d) None, s')
        /\ Struct.unpack_B (send_camera_request s') = Ret (k - ord_0)
        /\ recv_data_running s' = recv_data_running s
        /\ stdout s' = stdout s ++ [INFO_camera_requested (k - ord_0)])
  /\ (k = ord_r \/ k = ord_R ->
      keyboard_processing d s k
      = Ret (mkDisplay true (qr_result d), print s INFO_qr_requested))
  /\ (k <> ord_q -> ~ ord_1 <= k <= ord_9 -> k <> ord_r -> k <> ord_R ->
      keyboard_processing d s k = Ret (d, s)).
Proof.
  unfold keyboard_processing, ord_q, ord_0, ord_1, ord_9, ord_r, ord_R.
  split; [|split; [|split]].
  - intros ->. reflexivity.
  - intros Hk.
    replace (k =? 113) with false by (symmetry; apply Z.eqb_neq; lia).
    replace ((49 <=? k) && (k <=? 57)) with true
      by (symmetry; apply andb_true_iff; lia).
    unfold set_camera_request.
    replace ((1 <=? k - 48) && (k - 48 <=? 9)) with true
      by (symmetry; apply andb_true_iff; lia).
    destruct (unpack_B_pack_B (k - 48)) as (r & Hp & _ & Hu); [lia|].
    rewrite Hp. eexists. split; [reflexivity|].
    split; [exact Hu|]. split; reflexivity.
  - intros [-> | ->]; reflexivity.
  - intros Hq Hd Hr HR.
    replace (k =? 113) with false by (symmetry; apply Z.eqb_neq; lia).
    replace ((49 <=? k) && (k <=? 57)) with false
      by (symmetry; apply andb_false_iff; lia).
    replace ((k =? 114) || (k =? 82)) with false
      by (symmetry; apply orb_false_iff; split; apply Z.eqb_neq; lia).
    reflexivity.
Qed.

(** X9. The keyboard handler never raises. The key [q] clears the running
    flag and leaves the request; a digit key [1] to [9] stores that digit as
    the request, always through the accepting branch of
    [set_camera_request] (no warning is printed), forgets the QR result and
    leaves the flag; [r] and [R] only raise the QR request; any other key
    changes nothing at all. *)
Theorem keyboard_processing_keys (d : Display) (s : CameraServer) (k : Z) :
  (k = ord_q ->
     keyboard_processing d s k
     = Ret (d, with_recv_data_running (print s INFO_quit_requested) false))
  /\ (ord_1 <= k <= ord_9 ->
      exists s',
        keyboard_processing d s k = Ret (mkDisplay (qr_request d) None, s')
        /\ Struct.unpack_B (send_camera_request s') = Ret (k - ord_0)
        /\ recv_data_running s' = recv_data_running s
        /\ stdout s' = stdout s ++ [INFO_camera_requested (k - ord_0)])
  /\ (k = ord_r \/ k = ord_R ->
      keyboard_processing d s k
      = Ret (mkDisplay true (qr_result d), print s INFO_qr_requested))
  /\ (k <> ord_q -> ~ ord_1 <= k <= ord_9 -> k <> ord_r -> k <> ord_R ->
      keyboard_processing d s k = Ret (d, s)).
Proof. exact (keyboard_processing_cases d s k). Qed.

Lemma keyboard_processing_keys_witness :
  exists s',
    keyboard_processing (mkDisplay false None) (CameraServer_init 60) 52
    = Ret (mkDisplay false None, s')
    /\ Struct.unpack_B (send_camera_request s') = Ret 4.
Proof.
  destruct (keyboard_processing_keys (mkDisplay false None)
              (CameraServer_init 60) 52) as (_ & H & _).
  destruct H as (s' & Heq & Hu & _); [unfold ord_1, ord_9; lia|].
  exists s'. split; [exact Heq | exact Hu].
Defined.

Lemma keyboard_processing_total (d : Display) (s : CameraServer) (k : Z) :
  exists d' s',
    keyboard_processing d s k = Ret (d', s')
    /\ (k <> ord_q -> recv_data_running s' = recv_data_running s)
    /\ (k = ord_q -> recv_data_running s' = false).
Proof.
  destruct (Z.eq_dec k ord_q) as [Hq|Hq].
  - destruct (keyboard_processing_cases d s k) as (H & _).
    rewrite (H Hq). eexists _, _. split; [reflexivity|].
    split; [contradiction | reflexivity].
  - destruct (Z_le_dec ord_1 k) as [H1|H1];
      [destruct (Z_le_dec k ord_9) as [H9|H9]|].
    + destruct (keyboard_processing_cases d s k) as (_ & H & _).
      destruct H as (s' & Heq & _ & Hrun & _); [lia|].
      rewrite Heq. eexists _, _. split; [reflexivity|].
      split; [auto | contradiction].
    + destruct (Z.eq_dec k ord_r) as [Hr|Hr];
        [|destruct (Z.eq_dec k ord_R) as [HR|HR]].
      * destruct (keyboard_processing_cases d s k) as (_ & _ & H & _).
        rewrite H by auto. eexists _, _. split; [reflexivity|].
        split; [auto | contradiction].
      * destruct (keyboard_processing_cases d s k) as (_ & _ & H & _).
        rewrite H by auto. eexists _, _. split; [reflexivity|].
        split; [auto | contradiction].
      * destruct (keyboard_processing_cases d s k) as (_ & _ & _ & H).
        rewrite H by (auto; lia). eexists _, _. split; [reflexivity|].
        split; [auto | contradiction].
    + destruct (Z.eq_dec k ord_r) as [Hr|Hr];
        [|destruct (Z.eq_dec k ord_R) as [HR|HR]].
      * destruct (keyboard_processing_cases d s k) as (_ & _ & H & _).
        rewrite H by auto. eexists _, _. split; [reflexivity|].
        split; [auto | contradiction].
      * destruct (keyboard_processing_cases d s k) as (_ & _ & H & _).
        rewrite H by auto. eexists _, _. split; [reflexivity|].
        split; [auto | contradiction].
      * destruct (keyboard_processing_cases d s k) as (_ & _ & _ & H).
        rewrite H by (auto; lia). eexists _, _. split; [reflexivity|].
        split; [auto | contradiction].
Qed.

(** X10. The accept loop does not stop for idleness while somebody is
    connected, nor before the limit is exceeded: in a turn in which
    [accept] times out and the key is not [q], if the list of live sockets
    is not empty, or if at most 60 seconds have passed since [start_time]
    (exactly 60 included), the loop goes on with the flag still set, the
    listening socket open and [start_time] unchanged. *)
Theorem accept_loop_keeps_listening (st : Acceptor) (ev : run_event) :
  recv_data_running (server st) = true ->
  accepted ev = Raise socket_timeout ->
  key ev <> ord_q ->
  active_clients (server st) <> []
  \/ (fst (time_time (wall st)) - start_time st <= inject_Z timeout_limit)%Q ->
  exists st',
    run_turn st ev = (Continue, st')
    /\ recv_data_running (server st') = true
    /\ listening st' = listening st
    /\ start_time st' = start_time st
    /\ active_clients (server st') = active_clients (server st).
Proof.
  intros Hrun Hacc Hkey Hbusy.
  assert (forall st0,
            recv_data_running (server st0) = true ->
            exists st',
              run_display st0 (key ev) = (Continue, st')
              /\ recv_data_running (server st') = true
              /\ listening st' = listening st0
              /\ start_time st' = start_time st0
              /\ active_clients (server st') = active_clients (server st0))
    as Hdisp.
  { intros st0 Hrun0. unfold run_display.
    destruct (keyboard_processing_total (main_display st0) (server st0) (key ev))
      as (d' & s' & Heq & Hflag & _).
    pose proof (keyboard_processing_clients _ _ _ _ _ Heq) as Hcl.
    rewrite Heq, (Hflag Hkey), Hrun0. cbn [negb].
    eexists. split; [reflexivity|]. cbn [server listening start_time].
    rewrite (Hflag Hkey). auto. }
  unfold run_turn. rewrite Hacc.
  destruct (active_clients (server st)) as [|fd l] eqn:Hcl.
  - destruct Hbusy as [Hne | Hearly]; [congruence|].
    unfold time_time in *. cbn [fst snd] in *.
    apply Qle_bool_iff in Hearly.
    cbn [start_time server main_display listening threads].
    rewrite Hearly. cbn [negb].
    destruct (Hdisp (mkAcceptor (server st) (main_display st) (start_time st)
                       (mkClock (reading (wall st)) (S (calls (wall st))))
                       (listening st) (threads st)) Hrun)
      as (st' & Heq & H1 & H2 & H3 & H4).
    exists st'. cbn [server listening start_time] in *.
    rewrite Heq. repeat split; try assumption. congruence.
  - destruct (Hdisp st Hrun) as (st' & Heq & H1 & H2 & H3 & H4).
    exists st'. rewrite Heq. repeat split; try assumption. congruence.
Qed.

Lemma accept_loop_keeps_listening_witness :
  exists st',
    run_turn (mkAcceptor (CameraServer_init 60) (mkDisplay false None) 1
                         (mkClock (fun _ => 61%Q) 0) true [])
             quiet_turn
    = (Continue, st')
    /\ recv_data_running (server st') = true.
Proof.
  destruct (accept_loop_keeps_listening
              (mkAcceptor (CameraServer_init 60) (mkDisplay false None) 1
                          (mkClock (fun _ => 61%Q) 0) true [])
              quiet_turn) as (st' & Heq & Hrun & _).
  - reflexivity.
  - reflexivity.
  - discriminate.
  - right. discriminate.
  - exists st'. split; [exact Heq | exact Hrun].
Defined.

(** X11. The operator's [q] and a failing [accept] both end [run] in the
    same turn: whatever [accept] returned when the key is [q], and whatever
    the key when [accept] raised something other than a time-out, the loop
    is left with the running flag cleared, and [run] closes the listening
    socket and prints its last line. *)
Theorem quit_or_accept_failure_ends_run (s : CameraServer) (clk : clock)
    (ev : run_event) (script : list run_event) :
  recv_data_running s = true ->
  key ev = ord_q
  \/ (exists e, accepted ev = Raise e /\ e <> socket_timeout) ->
  exists st',
    run s clk (ev :: script) = Some (None, st')
    /\ recv_data_running (server st') = false
    /\ listening st' = false
    /\ last (stdout (server st')) = Some INFO_server_stopped.
Proof.
  intros Hrun Hcause.
  assert (forall st0,
            key ev = ord_q ->
            exists st',
              run_display st0 (key ev) = (Break, st')
              /\ recv_data_running (server st') = false) as Hdisp.
  { intros st0 Hq. unfold run_display.
    destruct (keyboard_processing_total (main_display st0) (server st0) (key ev))
      as (d' & s' & Heq & _ & Hflag).
    rewrite Heq, (Hflag Hq). cbn [negb]. eexists. split; [reflexivity|].
    cbn [server]. exact (Hflag Hq). }
  assert (forall st0,
            exists st',
              run_turn st0 ev = (Break, st')
              /\ recv_data_running (server st') = false) as Hturn.
  { intros st0. unfold run_turn.
    destruct (accepted ev) as [[conn a]|e] eqn:Hacc.
    - destruct Hcause as [Hq | (e & He & _)]; [|discriminate He].
      unfold time_time. apply Hdisp, Hq.
    - assert (e = socket_timeout -> key ev = ord_q) as Hq.
      { intros ->. destruct Hcause as [Hq | (e & He & Hne)]; [exact Hq|].
        congruence. }
      destruct e; try (eexists; split; reflexivity).
      destruct (active_clients (server st0)); [|apply Hdisp, Hq; reflexivity].
      unfold time_time.
      destruct (negb (Qle_bool _ _)); [eexists; split; reflexivity|].
      apply Hdisp, Hq. reflexivity. }
  unfold run. destruct (time_time clk) as [now clk1].
  cbn [run_loop server recv_data_running print]. rewrite Hrun.
  match goal with
  | |- context [run_turn ?st0 ev] => destruct (Hturn st0) as (st' & Heq & Hflag)
  end.
  rewrite Heq. cbn [mbind option_bind].
  eexists. split; [reflexivity|].
  cbn [run_epilogue server listening recv_data_running print stdout].
  split; [exact Hflag|]. split; [reflexivity|]. apply last_snoc.
Qed.

Lemma quit_or_accept_failure_ends_run_witness :
  exists st',
    run (CameraServer_init 60) (demo_clock 0)
        [mkRunEvent (Raise socket_timeout) 113]
    = Some (None, st')
    /\ recv_data_running (server st') = false
    /\ listening st' = false.
Proof.
  destruct (quit_or_accept_failure_ends_run (CameraServer_init 60)
              (demo_clock 0) (mkRunEvent (Raise socket_timeout) 113) [])
    as (st' & Heq & Hflag & Hlisten & _);
    [reflexivity | left; reflexivity |].
  exists st'. repeat split; assumption.
Defined.

(** * Further properties of the peer *)

(** ** The receive loop *)

Lemma receive_loop_turn_end (c : CameraClient) :
  arriving (inbound (sock c)) = [] ->
  exists c',
    receive_loop_turn c = (Break, c')
    /\ loop_running c' = false
    /\ requested_camera_num c' = requested_camera_num c
    /\ cameras c' = cameras c.
Proof.
  intros Hend. unfold receive_loop_turn, recv.
  destruct (inbound (sock c)) as [|[[|b bs]|e] evs] eqn:Hin;
    try discriminate Hend.
  - eexists. split; [reflexivity|]. repeat split.
  - cbn [drop take]. eexists. split; [reflexivity|]. repeat split.
  - unfold receive_loop_except. eexists. split; [reflexivity|]. repeat split.
Qed.

(** X12. The peer's receive loop on a stream of [n] bytes after which
    nothing more arrives (the server closed, or the socket failed): the loop
    ends, the requested camera number is the value of the last byte received
    (each byte replaces the one before), or what it was when no byte came,
    and [loop_running] is cleared, which is what stops the rest of the
    peer. The cameras are not touched. *)
Theorem receive_loop_last_byte_wins (bs : bytes) :
  forall (fuel : nat) (c : CameraClient),
    loop_running c = true ->
    arriving (inbound (sock c)) = bs ->
    (length bs < fuel)%nat ->
    exists c',
      receive_loop fuel c = Some c'
      /\ loop_running c' = false
      /\ requested_camera_num c'
         = match last bs with
           | Some b => Struct.byte_val b
           | None => requested_camera_num c
           end
      /\ cameras c' = cameras c.
Proof.
  induction bs as [|b bs IH]; intros fuel c Hrun Hstream Hfuel;
    (destruct fuel as [|fuel]; [simpl in Hfuel; lia|]);
    cbn [receive_loop]; rewrite Hrun.
  - destruct (receive_loop_turn_end c Hstream) as (c' & Hturn & H1 & H2 & H3).
    rewrite Hturn. exists c'. auto.
  - destruct (receive_loop_turn_byte c b bs Hstream) as (k & Hturn & Harr).
    rewrite Hturn.
    destruct (IH fuel (with_requested_camera_num (with_sock c k)
                         (Struct.byte_val b)))
      as (c' & Hloop & H1 & H2 & H3);
      [exact Hrun | exact Harr | simpl in Hfuel; lia |].
    exists c'. split; [exact Hloop|]. split; [exact H1|]. split; [|exact H3].
    rewrite H2. destruct bs as [|b' bs']; [reflexivity|].
    rewrite last_cons_cons.
    destruct (last (b' :: bs')) eqn:E; [reflexivity|].
    apply last_None in E. discriminate E.
Qed.

Lemma receive_loop_last_byte_wins_witness :
  exists c',
    receive_loop 4
      (mkClient (demo_socket [Packet [x02; x05]; Packet [x03];
                              RecvFails ConnectionResetError])
                true 1 [demo_camera] (demo_clock 0) [])
    = Some c'
    /\ loop_running c' = false
    /\ requested_camera_num c' = 3.
Proof.
  destruct (receive_loop_last_byte_wins [x02; x05; x03] 4
              (mkClient (demo_socket [Packet [x02; x05]; Packet [x03];
                                      RecvFails ConnectionResetError])
                        true 1 [demo_camera] (demo_clock 0) []))
    as (c' & Hloop & Hrun & Hnum & _);
    [reflexivity | reflexivity | simpl; lia |].
  exists c'. split; [exact Hloop|]. split; [exact Hrun | exact Hnum].
Defined.

(** ** Leaving the two loops *)

Lemma send_loop_turn_flag (pack_d : Q -> bytes) (c : CameraClient)
    (capture : Z -> option bytes) :
  (fst (send_loop_turn pack_d c capture) = Continue
   /\ loop_running (snd (send_loop_turn pack_d c capture)) = loop_running c)
  \/ (fst (send_loop_turn pack_d c capture) = Break
      /\ loop_running (snd (send_loop_turn pack_d c capture)) = false
      /\ requested_camera_num (snd (send_loop_turn pack_d c capture))
         = requested_camera_num c).
Proof.
  unfold send_loop_turn, send_loop_except.
  destruct (capture_requested (cameras c) (requested_camera_num c) capture)
    as [[target cams]|e]; [|right; repeat split].
  destruct (truthy target); [|left; split; reflexivity].
  unfold timestamp_send, time_time.
  destruct (sendall _ (Struct.pack_c "t" ++ _)) as [[[]|e] k1];
    [|right; repeat split].
  cbn [sock with_sock].
  destruct (sendall k1 _) as [[[]|e] k2];
    [left; split; reflexivity | right; repeat split].
Qed.

Lemma receive_loop_turn_flag (c : CameraClient) :
  (fst (receive_loop_turn c) = Continue
   /\ loop_running (snd (receive_loop_turn c)) = loop_running c)
  \/ (fst (receive_loop_turn c) = Break
      /\ loop_running (snd (receive_loop_turn c)) = false
      /\ requested_camera_num (snd (receive_loop_turn c))
         = requested_camera_num c).
Proof.
  unfold receive_loop_turn, receive_loop_except.
  destruct (recv (sock c) 1) as [[[|b [|b' bs]]|e] k];
    cbn [Struct.unpack_B];
    first [ left; split; reflexivity | right; repeat split; reflexivity ].
Qed.

(** X13. On the peer every way out of a loop clears [loop_running]: a turn
    of either loop either goes on and leaves the flag as it is, or stops,
    for whatever exception or for the end of the stream, with the flag
    cleared and the requested number as it was; no exception escapes a
    turn. So whenever [send_loop] or [receive_loop] returns after having
    run, the flag is cleared, which ends the other loop at its next turn. *)
Theorem peer_loop_exit_clears_flag (pack_d : Q -> bytes) :
  (forall c capture,
     exists c',
       (send_loop_turn pack_d c capture = (Continue, c')
        /\ loop_running c' = loop_running c)
       \/ (send_loop_turn pack_d c capture = (Break, c')
           /\ loop_running c' = false
           /\ requested_camera_num c' = requested_camera_num c))
  /\ (forall c,
        exists c',
          (receive_loop_turn c = (Continue, c')
           /\ loop_running c' = loop_running c)
          \/ (receive_loop_turn c = (Break, c')
              /\ loop_running c' = false
              /\ requested_camera_num c' = requested_camera_num c))
  /\ (forall script c c',
        send_loop pack_d script c = Some c' -> loop_running c' = false)
  /\ (forall fuel c c',
        receive_loop fuel c = Some c' -> loop_running c' = false).
Proof.
  split; [|split; [|split]].
  - intros c capture. pose proof (send_loop_turn_flag pack_d c capture) as H.
    destruct (send_loop_turn pack_d c capture) as [fl c'].
    exists c'. cbn [fst snd] in H. destruct H as [[-> H]|[-> H]]; auto.
  - intros c. pose proof (receive_loop_turn_flag c) as H.
    destruct (receive_loop_turn c) as [fl c'].
    exists c'. cbn [fst snd] in H. destruct H as [[-> H]|[-> H]]; auto.
  - induction script as [|capture script IH]; intros c c';
      cbn [send_loop]; destruct (loop_running c) eqn:Hrun;
      try discriminate; try (intros [= <-]; exact Hrun).
    pose proof (send_loop_turn_flag pack_d c capture) as H.
    destruct (send_loop_turn pack_d c capture) as [fl c1].
    cbn [fst snd] in H. destruct H as [[-> H]|[-> (H & _)]].
    + apply IH.
    + intros [= <-]. exact H.
  - induction fuel as [|fuel IH]; intros c c';
      cbn [receive_loop]; destruct (loop_running c) eqn:Hrun;
      try discriminate; try (intros [= <-]; exact Hrun).
    pose proof (receive_loop_turn_flag c) as H.
    destruct (receive_loop_turn c) as [fl c1].
    cbn [fst snd] in H. destruct H as [[-> H]|[-> (H & _)]].
    + apply IH.
    + intros [= <-]. exact H.
Qed.

Lemma peer_loop_exit_clears_flag_witness :
  exists c',
    send_loop demo_pack_d [demo_capture; demo_capture]
      (mkClient (demo_link [] [None; None; Some BrokenPipeError]) true 1
                [demo_camera] (demo_clock 0) [])
    = Some c'
    /\ loop_running c' = false.
Proof.
  destruct (peer_loop_exit_clears_flag demo_pack_d) as (_ & _ & H & _).
  destruct (send_loop demo_pack_d [demo_capture; demo_capture]
              (mkClient (demo_link [] [None; None; Some BrokenPipeError]) true 1
                        [demo_camera] (demo_clock 0) [])) as [c'|] eqn:Hloop.
  - exists c'. split; [reflexivity | exact (H _ _ _ Hloop)].
  - vm_compute in Hloop. discriminate Hloop.
Defined.

(** ** The cameras *)

Lemma probe_devices_order (devices : list nat) (opened : nat -> bool)
    (quality : Z) :
  forall next_num,
    map device (probe_devices devices opened quality next_num)
    = filter (fun i => opened i = true) devices
    /\ map camera_num (probe_devices devices opened quality next_num)
       = map (fun k => next_num + Z.of_nat k)
             (seq 0 (length (probe_devices devices opened quality next_num))).
Proof.
  induction devices as [|i devices IH]; intros next_num; [split; reflexivity|].
  cbn [probe_devices]. rewrite filter_cons.
  destruct (opened i) eqn:Hi.
  - destruct (IH (next_num + 1)) as [Hd Hn].
    destruct (decide (true = true)) as [_|Hne]; [|congruence].
    cbn [map length seq camera_num device]. rewrite Hd, Hn. split; [reflexivity|].
    f_equal; [lia|]. rewrite <- seq_shift, map_map.
    apply map_ext. intros k. lia.
  - destruct (decide (false = true)) as [Hne|_]; [discriminate|]. apply IH.
Qed.

(** X14. [initialize_cameras] gives the devices that open, in the order of
    their indices 0 to 9, the camera numbers 1, 2, 3, ... without gaps,
    whatever indices are missing in between; at most ten cameras result.
    It raises [RuntimeError] exactly when none of the ten devices opens, so a
    peer that got past it has a camera number 1. *)
Theorem initialize_cameras_numbering (opened : nat -> bool) (quality : Z) :
  (initialize_cameras opened quality = Raise RuntimeError
   <-> forall i, (i < 10)%nat -> opened i = false)
  /\ (forall cams,
        initialize_cameras opened quality = Ret cams ->
        map device cams = filter (fun i => opened i = true) (seq 0 10)
        /\ map camera_num cams = map Z.of_nat (seq 1 (length cams))
        /\ (1 <= length cams <= 10)%nat
        /\ Forall (fun cam => jpeg_quality cam = quality
                             /\ camera_data cam = None) cams).
Proof.
  unfold initialize_cameras.
  destruct (probe_devices_order (seq 0 10) opened quality 1) as [Hd Hn].
  pose proof (probe_devices_numbers (seq 0 10) opened quality 1) as Hrange.
  assert (forall devices n,
            Forall (fun cam => jpeg_quality cam = quality
                               /\ camera_data cam = None)
                   (probe_devices devices opened quality n)) as Hq.
  { induction devices as [|i devices IH]; intros n; [constructor|].
    cbn [probe_devices]. destruct (opened i); [constructor|]; auto. }
  specialize (Hq (seq 0 10) 1).
  destruct (probe_devices (seq 0 10) opened quality 1) as [|cam l] eqn:Hp.
  - split.
    + split; [|reflexivity]. intros _ i Hi.
      destruct (opened i) eqn:Hoi; [|reflexivity].
      assert (i ∈ filter (fun i => opened i = true) (seq 0 10)) as Hin.
      { apply list_elem_of_filter. split; [exact Hoi|].
        apply list_elem_of_In, in_seq. lia. }
      rewrite <- Hd in Hin. apply elem_of_nil in Hin. contradiction.
    + intros cams [=].
  - split.
    + split; [discriminate|]. intros Hnone.
      assert (device cam ∈ filter (fun i => opened i = true) (seq 0 10)) as Hin
        by (rewrite <- Hd; apply list_elem_of_here).
      apply list_elem_of_filter in Hin as [Hopen Hin].
      apply list_elem_of_In, in_seq in Hin.
      rewrite Hnone in Hopen by lia. discriminate Hopen.
    + intros cams [= <-]. split; [exact Hd|]. split; [|split; [|exact Hq]].
      * rewrite Hn, <- seq_shift, map_map. apply map_ext. intros k. lia.
      * split; [cbn [length]; lia|].
        rewrite <- (length_map device), Hd.
        etransitivity; [apply length_filter|]. rewrite length_seq. lia.
Qed.

Lemma initialize_cameras_numbering_witness :
  exists cams,
    initialize_cameras (fun i => Nat.eqb i 2 || Nat.eqb i 7) 40 = Ret cams
    /\ map device cams = [2; 7]%nat
    /\ map camera_num cams = [1; 2].
Proof.
  destruct (initialize_cameras (fun i => Nat.eqb i 2 || Nat.eqb i 7) 40)
    as [cams|e] eqn:Hinit; [|discriminate Hinit].
  destruct (initialize_cameras_numbering (fun i => Nat.eqb i 2 || Nat.eqb i 7) 40)
    as [_ H].
  destruct (H cams Hinit) as (Hd & Hn & _).
  exists cams. split; [reflexivity|]. split; [exact Hd|].
  rewrite Hn. injection Hinit as <-. reflexivity.
Defined.

(** ** From the camera to the registry *)

Lemma pack_L_range (n : Z) (len : bytes) :
  Struct.pack_L n = Ret len -> 0 <= n < 2 ^ 32.
Proof.
  unfold Struct.pack_L.
  destruct ((0 <=? n) && (n <? 2 ^ 32)) eqn:E; [|discriminate].
  apply andb_true_iff in E. lia.
Qed.

(** The turn of the send loop in which a frame is at hand and both writes
    go through. *)
Lemma send_loop_turn_written (pack_d : Q -> bytes) (c : CameraClient)
    (capture : Z -> option bytes) (frame : bytes) (cams : list Camera) :
  capture_requested (cameras c) (requested_camera_num c) capture
    = Ret (Some frame, cams) ->
  sends_succeed 2 (sock c) ->
  exists c',
    send_loop_turn pack_d c capture = (Continue, c')
    /\ outbound (sock c')
       = outbound (sock c)
         ++ ("t"%byte :: pack_d (fst (time_time (client_clock c)))) ++ frame
    /\ requested_camera_num c' = requested_camera_num c
    /\ loop_running c' = loop_running c.
Proof.
  intros Hcap Hsend. unfold send_loop_turn. rewrite Hcap.
  destruct (capture_requested_frame _ _ _ _ _ Hcap)
    as (payload & _ & _ & _ & Hframe).
  replace (truthy (Some frame)) with true by (rewrite Hframe; reflexivity).
  unfold timestamp_send, time_time.
  cbn [client_clock with_cameras with_client_clock sock fst].
  destruct (sendall_ok (sock c)
              (Struct.pack_c "t" ++ pack_d (reading (client_clock c)
                                              (calls (client_clock c))))
              1 Hsend) as (k1 & Hs1 & Ho1 & Hsend1).
  rewrite Hs1. cbn [with_sock sock from_option id].
  destruct (sendall_ok k1 frame 0 Hsend1) as (k2 & Hs2 & Ho2 & _).
  rewrite Hs2. eexists. split; [reflexivity|].
  cbn [with_sock sock requested_camera_num loop_running].
  rewrite Ho2, Ho1, <- app_assoc. auto.
Qed.

(** X15. From a capture to the registry. In a turn of the peer's send loop
    in which the requested camera delivers the payload [P] and both writes
    go through, what the peer puts on the wire, read by the server's
    inbound loop in whatever segments it arrives, takes exactly two turns:
    the first records the latency, the server's clock reading minus the
    time stamp the peer packed, times 1000; the second stores [P] as the
    peer's latest frame; and the stream stands right behind the two
    messages. It is assumed of the two conversions of doubles only that a
    packed time stamp has eight bytes. *)
Theorem capture_reaches_registry (pack_d : Q -> bytes) (unpack_d : bytes -> Q)
    (c : CameraClient) (capture : Z -> option bytes) (frame : bytes)
    (cams : list Camera) :
  capture_requested (cameras c) (requested_camera_num c) capture
    = Ret (Some frame, cams) ->
  sends_succeed 2 (sock c) ->
  length (pack_d (fst (time_time (client_clock c)))) = 8%nat ->
  exists c' written P,
    send_loop_turn pack_d c capture = (Continue, c')
    /\ outbound (sock c') = outbound (sock c) ++ written
    /\ capture (requested_camera_num c) = Some P
    /\ forall (s : CameraServer) (link : socket) (a : addr) (clk : clock)
              (rest : bytes),
         arriving (inbound link) = written ++ rest ->
         exists s1 link1 s2 link2,
           let sent_at := unpack_d (pack_d (fst (time_time (client_clock c)))) in
           let latency_ms := ((fst (time_time clk) - sent_at) * 1000)%Q in
           recv_data_turn unpack_d s link a clk
           = Some (Continue, s1, link1, snd (time_time clk))
           /\ recv_data_turn unpack_d s1 link1 a (snd (time_time clk))
              = Some (Continue, s2, link2, snd (time_time clk))
           /\ client_latency_time s2 !! a = Some latency_ms
           /\ latency_history s2 = deque_append (latency_history s) latency_ms
           /\ client_camera_data s2 !! a = Some P
           /\ arriving (inbound link2) = rest.
Proof.
  intros Hcap Hsend Hts.
  destruct (send_loop_turn_written pack_d c capture frame cams Hcap Hsend)
    as (c' & Hturn & Hout & _).
  destruct (capture_requested_frame _ _ _ _ _ Hcap)
    as (P & HP & _ & Hpack & Hframe).
  apply pack_L_range in Hpack.
  set (ts := pack_d (fst (time_time (client_clock c)))) in *.
  exists c', (("t"%byte :: ts) ++ frame), P.
  split; [exact Hturn|]. split; [exact Hout|]. split; [exact HP|].
  intros s link a clk rest Hstream.
  destruct (recv_data_turn_timing unpack_d s link a clk ts (frame ++ rest) Hts)
    as (evs1 & H1 & A1).
  { rewrite Hstream. cbn [app]. now rewrite <- app_assoc. }
  destruct (recv_data_turn_camera unpack_d
              (put_latency s a ((fst (time_time clk) - unpack_d ts) * 1000)%Q)
              (set_inbound link evs1) a (snd (time_time clk))
              (Struct.be_bytes 4 (Z.of_nat (length P))) P rest)
    as (evs2 & H2 & A2).
  { apply be_bytes_length. }
  { apply unpack_L_be_bytes. lia. }
  { cbn [inbound set_inbound]. rewrite A1, Hframe. cbn [app].
    now rewrite <- app_assoc. }
  eexists _, _, _, _. cbv zeta.
  split; [exact H1|]. split; [exact H2|].
  split; [|split; [reflexivity|split; [|exact A2]]].
  - unfold put_frame, put_latency.
    cbn [client_latency_time with_client_camera_data with_client_latency_time].
    apply lookup_insert_eq.
  - unfold put_frame. cbn [client_camera_data with_client_camera_data].
    apply lookup_insert_eq.
Qed.

Lemma capture_reaches_registry_witness :
  exists c' s1 link1 s2 link2,
    send_loop_turn demo_pack_d demo_client demo_capture = (Continue, c')
    /\ recv_data_turn demo_unpack_d (CameraServer_init 60)
         (demo_socket (byte_by_byte (outbound (sock c')))) demo_peer
         (demo_clock 7)
       = Some (Continue, s1, link1, snd (time_time (demo_clock 7)))
    /\ recv_data_turn demo_unpack_d s1 link1 demo_peer
         (snd (time_time (demo_clock 7)))
       = Some (Continue, s2, link2, snd (time_time (demo_clock 7)))
    /\ client_camera_data s2 !! demo_peer = Some ["J"; "F"]%byte.
Proof.
  destruct (capture_reaches_registry demo_pack_d demo_unpack_d demo_client
              demo_capture ["c"; x00; x00; x00; x02; "J"; "F"]%byte
              [mkCamera 0 40 1 (Some ["c"; x00; x00; x00; x02; "J"; "F"]%byte)])
    as (c' & written & P & Hturn & Hout & HP & Hserver);
    [reflexivity | constructor | reflexivity |].
  injection HP as <-.
  destruct (Hserver (CameraServer_init 60)
              (demo_socket (byte_by_byte (outbound (sock c')))) demo_peer
              (demo_clock 7) [])
    as (s1 & link1 & s2 & link2 & H1 & H2 & _ & _ & Hcam & _).
  { cbn [inbound demo_socket]. rewrite arriving_byte_by_byte, Hout.
    cbn [outbound sock demo_client demo_socket app]. now rewrite app_nil_r. }
  exists c', s1, link1, s2, link2. repeat split; assumption.
Defined.

(** X16. The search of the send loop asks the first camera that carries the
    requested number, and no other: whatever it returns, the cameras
    afterwards have the same numbers, devices and qualities in the same
    order, so the numbering set up at start stays for good, and when no
    frame comes back the cameras are exactly what they were. The search
    raises only [struct.error], and only when the requested camera
    delivered a payload of 2^32 bytes or more. *)
Theorem capture_requested_keeps_cameras (cams : list Camera) (n : Z)
    (capture : Z -> option bytes) :
  (forall target cams',
     capture_requested cams n capture = Ret (target, cams') ->
     map camera_num cams' = map camera_num cams
     /\ map device cams' = map device cams
     /\ map jpeg_quality cams' = map jpeg_quality cams
     /\ (target = None -> cams' = cams))
  /\ (forall e,
        capture_requested cams n capture = Raise e ->
        e = struct_error
        /\ exists P, capture n = Some P /\ 2 ^ 32 <= Z.of_nat (length P)).
Proof.
  induction cams as [|cam cams IH]; cbn [capture_requested].
  - split; [intros target cams' [= <- <-]; auto | discriminate].
  - destruct (camera_num cam =? n) eqn:E.
    + apply Z.eqb_eq in E. rewrite E. unfold capture_and_encode.
      destruct (capture n) as [[|b bs]|] eqn:Hcap.
      * split; [intros target cams' [= <- <-]; auto | discriminate].
      * unfold Struct.pack_L.
        destruct ((0 <=? Z.of_nat (length (b :: bs)))
                  && (Z.of_nat (length (b :: bs)) <? 2 ^ 32)) eqn:Hr.
        -- split; [|discriminate]. intros target cams' [= <- <-].
           repeat split. discriminate.
        -- split; [discriminate|]. intros e [= <-]. split; [reflexivity|].
           exists (b :: bs). split; [reflexivity|].
           apply andb_false_iff in Hr. lia.
      * split; [intros target cams' [= <- <-]; auto | discriminate].
    + destruct IH as [IHok IHko].
      destruct (capture_requested cams n capture) as [[target cams'']|e] eqn:Hrec.
      * split; [|discriminate]. intros t c' [= <- <-].
        destruct (IHok target cams'' eq_refl) as (H1 & H2 & H3 & H4).
        cbn [map]. rewrite H1, H2, H3. repeat split.
        intros ->. now rewrite H4.
      * split; [discriminate|]. intros e' [= <-]. apply IHko. reflexivity.
Qed.

Lemma capture_requested_keeps_cameras_witness :
  exists target cams',
    capture_requested [demo_camera; mkCamera 4 40 2 None] 2
      (fun _ => Some ["J"]%byte) = Ret (target, cams')
    /\ map camera_num cams' = [1; 2].
Proof.
  destruct (capture_requested [demo_camera; mkCamera 4 40 2 None] 2
              (fun _ => Some ["J"]%byte)) as [[target cams']|e] eqn:Hcap;
    [|discriminate Hcap].
  destruct (capture_requested_keeps_cameras [demo_camera; mkCamera 4 40 2 None]
              2 (fun _ => Some ["J"]%byte)) as [H _].
  destruct (H target cams' Hcap) as (Hn & _).
  exists target, cams'. split; [reflexivity | exact Hn].
Defined.

(** ** Bytes that are no tag, and the way [run] returns *)

Lemma print_prints (s : CameraServer) (l : line) (ls : list line) :
  prints (print s l) ls = prints s (l :: ls).
Proof.
  unfold prints, print. cbn. rewrite <- app_assoc. reflexivity.
Qed.

(** The turn on a byte that is no tag. *)
Lemma recv_data_turn_unknown (unpack_d : bytes -> Q) (s : CameraServer)
    (sock : socket) (a : addr) (clk : clock) (tag : byte) (rest : bytes) :
  tag <> "c"%byte -> tag <> "t"%byte ->
  arriving (inbound sock) = tag :: rest ->
  exists evs,
    recv_data_turn unpack_d s sock a clk
    = Some (Continue, print s (WARN_unexpected_type tag a),
            set_inbound sock evs, clk)
    /\ arriving evs = rest.
Proof.
  intros Hc Ht Hstream.
  destruct (recv_all_prefix sock Struct.calcsize_c [tag] rest)
    as (evs & H1 & A1); [reflexivity | exact Hstream |].
  exists evs. split; [|exact A1].
  unfold recv_data_turn. rewrite H1. cbn [mbind option_bind].
  rewrite prints_nil. cbn [Struct.unpack_c].
  rewrite (byte_eqb_neq _ _ Hc), (byte_eqb_neq _ _ Ht). reflexivity.
Qed.

(** X17. Bytes that are neither [c] nor [t], standing before the next
    message: the inbound loop drops them one per turn, printing one warning
    for each and changing nothing else, and then goes on exactly as if the
    stream had started behind them. A frame that follows such bytes is
    therefore still decoded. *)
Theorem junk_before_message_is_skipped (unpack_d : bytes -> Q) (a : addr)
    (junk : bytes) :
  forall (fuel : nat) (s : CameraServer) (sock : socket) (clk : clock)
         (rest : bytes),
    Forall (fun b => b <> "c"%byte /\ b <> "t"%byte) junk ->
    arriving (inbound sock) = junk ++ rest ->
    recv_data_running s = true ->
    exists evs,
      recv_data_loop unpack_d (length junk + fuel) s sock a clk
      = recv_data_loop unpack_d fuel
          (prints s (map (fun b => WARN_unexpected_type b a) junk))
          (set_inbound sock evs) a clk
      /\ arriving evs = rest.
Proof.
  induction junk as [|b junk IH]; intros fuel s sock clk rest Hjunk Hstream Hrun.
  - exists (inbound sock). cbn [length map Nat.add].
    rewrite prints_nil, set_inbound_same. split; [reflexivity | exact Hstream].
  - apply Forall_cons in Hjunk as [[Hc Ht] Hjunk].
    destruct (recv_data_turn_unknown unpack_d s sock a clk b (junk ++ rest)
                Hc Ht Hstream) as (evs1 & Hturn & A1).
    cbn [length Nat.add recv_data_loop]. rewrite Hrun, Hturn.
    cbn [mbind option_bind].
    destruct (IH fuel (print s (WARN_unexpected_type b a))
                (set_inbound sock evs1) clk rest Hjunk A1 Hrun)
      as (evs2 & Hloop & A2).
    exists evs2. rewrite Hloop. cbn [map]. rewrite print_prints.
    split; [reflexivity | exact A2].
Qed.

Lemma junk_before_message_is_skipped_witness :
  exists evs,
    recv_data_loop demo_unpack_d 10 (CameraServer_init 60)
      (demo_socket [Packet ["x"; "y"; "c"; x00; x00; x00; x01; "A"]%byte])
      demo_peer (demo_clock 0)
    = recv_data_loop demo_unpack_d 8
        (prints (CameraServer_init 60)
           [WARN_unexpected_type "x"%byte demo_peer;
            WARN_unexpected_type "y"%byte demo_peer])
        (set_inbound
           (demo_socket [Packet ["x"; "y"; "c"; x00; x00; x00; x01; "A"]%byte])
           evs)
        demo_peer (demo_clock 0)
    /\ arriving evs = ["c"; x00; x00; x00; x01; "A"]%byte.
Proof.
  apply (junk_before_message_is_skipped demo_unpack_d demo_peer
           ["x"; "y"]%byte 8 (CameraServer_init 60)
           (demo_socket [Packet ["x"; "y"; "c"; x00; x00; x00; x01; "A"]%byte])
           (demo_clock 0) ["c"; x00; x00; x00; x01; "A"]%byte).
  - repeat constructor; discriminate.
  - reflexivity.
  - reflexivity.
Defined.

Lemma run_display_stop (st : Acceptor) (k : Z) :
  exists st',
    (run_display st k = (Continue, st')
     /\ recv_data_running (server st') = true)
    \/ (run_display st k = (Break, st')
        /\ recv_data_running (server st') = false).
Proof.
  unfold run_display.
  destruct (keyboard_processing_total (main_display st) (server st) k)
    as (d' & s' & Heq & _).
  rewrite Heq. destruct (recv_data_running s') eqn:Hflag; cbn [negb];
    eexists; [left | right]; (split; [reflexivity | exact Hflag]).
Qed.

Lemma run_turn_stop (st : Acceptor) (ev : run_event) :
  exists st',
    (run_turn st ev = (Continue, st')
     /\ recv_data_running (server st') = true)
    \/ (run_turn st ev = (Break, st')
        /\ recv_data_running (server st') = false).
Proof.
  unfold run_turn. destruct (accepted ev) as [[conn a]|e].
  - unfold time_time. apply run_display_stop.
  - destruct e; try (eexists; right; split; reflexivity).
    destruct (active_clients (server st)); [|apply run_display_stop].
    unfold time_time.
    destruct (negb (Qle_bool _ _)); [eexists; right; split; reflexivity|].
    apply run_display_stop.
Qed.

(** X18. [run] returns only stopped: no exception leaves the accept loop,
    whatever [accept] raises and whatever keys are pressed, and whenever
    [run] returns, the running flag is cleared, the listening socket is
    closed and the last line printed is the final one. *)
Theorem run_returns_stopped (s : CameraServer) (clk : clock)
    (script : list run_event) (raised : option exn) (st : Acceptor) :
  run s clk script = Some (raised, st) ->
  raised = None
  /\ recv_data_running (server st) = false
  /\ listening st = false
  /\ last (stdout (server st)) = Some INFO_server_stopped.
Proof.
  assert (forall script st0 r st1,
            run_loop script st0 = Some (r, st1) ->
            r = None /\ recv_data_running (server st1) = false) as Hloop.
  { induction script0 as [|ev script0 IH]; intros st0 r st1;
      cbn [run_loop]; destruct (recv_data_running (server st0)) eqn:Hrun;
      try discriminate; try (intros [= <- <-]; auto).
    destruct (run_turn_stop st0 ev) as (st' & [[Heq Hflag]|[Heq Hflag]]);
      rewrite Heq; [apply IH | intros [= <- <-]; auto]. }
  unfold run. destruct (time_time clk) as [now clk1].
  destruct (run_loop script _) as [[r st1]|] eqn:Hrun; [|discriminate].
  cbn [mbind option_bind]. destruct (Hloop _ _ _ _ Hrun) as [-> Hflag].
  intros [= <- <-]. split; [reflexivity|].
  cbn [run_epilogue server listening recv_data_running print stdout].
  split; [exact Hflag|]. split; [reflexivity|]. apply last_snoc.
Qed.

Lemma run_returns_stopped_witness :
  exists st,
    run (CameraServer_init 60) (demo_clock 0)
        [quiet_turn; mkRunEvent (Raise OtherException) 255]
    = Some (None, st)
    /\ listening st = false.
Proof.
  destruct (run (CameraServer_init 60) (demo_clock 0)
                [quiet_turn; mkRunEvent (Raise OtherException) 255])
    as [[raised st]|] eqn:Hrun.
  - destruct (run_returns_stopped _ _ _ _ _ Hrun) as (-> & _ & Hl & _).
    exists st. split; [reflexivity | exact Hl].
  - vm_compute in Hrun. discriminate Hrun.
Defined.

(** * When the last peer has left *)

(** A poll of the accept loop with nobody connected, before the idle limit
    is exceeded and without the key [q]. *)
Lemma run_turn_waits (st : Acceptor) (ev : run_event) :
  recv_data_running (server st) = true ->
  accepted ev = Raise socket_timeout ->
  active_clients (server st) = [] ->
  key ev <> ord_q ->
  (fst (time_time (wall st)) - start_time st <= inject_Z timeout_limit)%Q ->
  exists st',
    run_turn st ev = (Continue, st')
    /\ recv_data_running (server st') = true
    /\ active_clients (server st') = []
    /\ start_time st' = start_time st.
Proof.
  intros Hrun Hacc Hnone Hkey Hearly.
  unfold run_turn. rewrite Hacc, Hnone.
  unfold time_time in *. cbn [fst snd] in *.
  apply Qle_bool_iff in Hearly.
  cbn [start_time server main_display listening threads].
  rewrite Hearly. cbn [negb]. unfold run_display.
  cbn [start_time server main_display listening threads wall].
  destruct (keyboard_processing_total (main_display st) (server st) (key ev))
    as (d' & s' & Heq & Hflag & _).
  pose proof (keyboard_processing_clients _ _ _ _ _ Heq) as Hcl.
  rewrite Heq, (Hflag Hkey), Hrun. cbn [negb].
  eexists. split; [reflexivity|]. cbn [server start_time].
  rewrite (Hflag Hkey), Hcl. auto.
Qed.

(** C2 (as amended). When a session's inbound loop has ended and its
    clean-up has emptied the list of live sockets, [recv_data] leaves the
    running flag as it was and prints the disconnection line and nothing
    more: the branch that would stop the server is guarded by
    [not self.display_thread_running()], and [display_thread_running]
    returns [True]. What stops the server afterwards is the idle rule of
    the accept loop: with the list empty, the first poll at which more than
    60 seconds have passed since [start_time], the time of the last accepted
    connection, clears the flag, and [run] closes the listening socket; a
    poll before that, without the key [q], lets the loop go on with the flag
    set. *)
Theorem last_peer_leaving_keeps_running (unpack_d : bytes -> Q) (sock : socket)
    (a : addr) :
  (forall s : CameraServer,
     let s' := fst (recv_data_finally s sock a) in
     recv_data_running s' = recv_data_running s
     /\ stdout s' = stdout s ++ [INFO_client_disconnected a])
  /\ (forall (fuel : nat) (s : CameraServer) (clk : clock),
        (length (arriving (inbound sock)) < fuel)%nat ->
        exists s' sock' clk',
          recv_data unpack_d fuel s sock a clk = Some (s', sock', clk')
          /\ recv_data_running s' = recv_data_running s)
  /\ (forall (st : Acceptor) (ev : run_event) (script : list run_event),
        recv_data_running (server st) = true ->
        active_clients (server st) = [] ->
        accepted ev = Raise socket_timeout ->
        ((inject_Z timeout_limit
          < fst (time_time (wall st)) - start_time st)%Q ->
         exists st',
           run_loop (ev :: script) st = Some (None, st')
           /\ recv_data_running (server st') = false
           /\ listening (run_epilogue st') = false)
        /\ ((fst (time_time (wall st)) - start_time st
             <= inject_Z timeout_limit)%Q ->
            key ev <> ord_q ->
            exists st',
              run_turn st ev = (Continue, st')
              /\ recv_data_running (server st') = true
              /\ active_clients (server st') = []
              /\ start_time st' = start_time st)).
Proof.
  split; [|split].
  - intros s. rewrite recv_data_finally_eq. cbn [fst].
    destruct (registry_cleanup_spec s sock a) as (_ & _ & _ & Hr & _ & _ & Ho).
    cbv zeta in Hr, Ho. cbn [recv_data_running stdout print].
    rewrite Hr, Ho. auto.
  - intros fuel s clk Hfuel. unfold recv_data.
    destruct (recv_data_loop_total unpack_d a fuel
                (print s (INFO_recv_thread_start a)) sock clk Hfuel)
      as (raised & s1 & k1 & clk1 & Hloop & _ & _ & Hflag & _).
    rewrite Hloop. cbn [mbind option_bind]. rewrite recv_data_finally_eq.
    eexists _, _, _. split; [reflexivity|].
    cbn [recv_data_running print].
    destruct (registry_cleanup_spec
                match raised with
                | Some _ => print s1 (ERROR_recv_exception a)
                | None => s1
                end k1 a) as (_ & _ & _ & Hr & _).
    cbv zeta in Hr. rewrite Hr. destruct raised; exact Hflag.
  - intros st ev script Hrun Hnone Hacc. split.
    + intros Hlate.
      rewrite (run_loop_idle st ev script Hrun Hacc Hnone Hlate).
      eexists. split; [reflexivity|]. split; reflexivity.
    + intros Hearly Hkey. now apply run_turn_waits.
Qed.

Lemma last_peer_leaving_keeps_running_witness :
  (exists s' sock' clk',
     recv_data demo_unpack_d 1 demo_server (demo_socket []) demo_peer
               (demo_clock 0)
     = Some (s', sock', clk')
     /\ recv_data_running s' = recv_data_running demo_server)
  /\ (exists st',
        run_loop [quiet_turn] demo_acceptor = Some (None, st')
        /\ recv_data_running (server st') = false
        /\ listening (run_epilogue st') = false).
Proof.
  destruct (last_peer_leaving_keeps_running demo_unpack_d (demo_socket [])
              demo_peer) as (_ & Hsession & Hpoll).
  split.
  - apply Hsession. simpl. lia.
  - destruct (Hpoll demo_acceptor quiet_turn [])
      as [Hlate _]; [reflexivity | reflexivity | reflexivity |].
    apply Hlate. reflexivity.
Defined.
